(** * Thaw front-end library: share accounting, lending projections, leverage

    A shallow embedding of the numeric core of the Thaw web client
    ([lib/casper.ts] and the leverage page):

    - [bigint] values are unbounded integers [Z]; the [/] of two bigints
      truncates toward zero ([Z.quot]) and throws a [RangeError] on a zero
      divisor;
    - [number] values are IEEE-754 binary64, i.e. Rocq's primitive [float];
    - a function that may throw returns a [result];
    - the Casper SDK is not part of the repository: the values its
      constructors accept are a parameter ([SDK]);
    - the RPC node is a read-only store of named keys and dictionaries.

    The second half covers more of [lib/casper.ts] (the pool statistics,
    withdrawal requests), [lib/utils.ts], the health factor gauge and the
    values the pages derive from them. *)

From Stdlib Require Import ZArith Lia.
From Stdlib Require Import PrimFloat SpecFloat FloatOps FloatAxioms.
From stdpp Require Import base option strings gmap.

#[local] Open Scope Z_scope.

(** ** Exceptions

    [RangeError] and [Error] are thrown by the code of the client itself;
    [SdkError] stands for whatever a call into the Casper SDK throws. *)

Inductive exn : Type :=
  | RangeError (msg : string)
  | Error (msg : string)
  | SdkError (call : string).

Inductive result (A : Type) : Type :=
  | Ok (a : A)
  | Throw (e : exn).

Arguments Ok {A} a.
Arguments Throw {A} e.

#[global] Instance result_ret : MRet result := fun _ a => Ok a.
#[global] Instance result_bind : MBind result := fun _ _ k m =>
  match m with
  | Ok a => k a
  | Throw e => Throw e
  end.

#[global] Instance result_fmap : FMap result := fun _ _ f m =>
  match m with
  | Ok a => Ok (f a)
  | Throw e => Throw e
  end.

(** ** bigint arithmetic *)

Module BigInt.

(** [a / b] on bigints. *)
Definition div (a b : Z) : result Z :=
  if b =? 0 then Throw (RangeError "Division by zero") else Ok (Z.quot a b).

(** [Number(z)]: the binary64 value nearest to [z], ties to even. *)
Definition Number (z : Z) : float :=
  SF2Prim (binary_normalize prec emax z 0 false).

End BigInt.

(** ** The RPC node

    [queryContractState] and [queryDictionary] catch every failure and
    answer [null]; a missing contract, key or dictionary item is [None].
    The answers are taken to be integers (numbers or bigints), the values
    the callers compute with; an answer of another shape, on which
    [BigInt(String(x))] throws, is outside this store. *)

Record Contract : Type := {
  named_keys : gmap string Z;
  dictionaries : gmap string (gmap string Z)
}.

Record Node : Type := { contracts : gmap string Contract }.

Definition queryContractState (node : Node) (contractHash key : string)
  : option Z :=
  c ← contracts node !! contractHash; named_keys c !! key.

Definition queryDictionary (node : Node)
  (contractHash dictionaryName dictionaryKey : string) : option Z :=
  c ← contracts node !! contractHash;
  d ← dictionaries c !! dictionaryName;
  d !! dictionaryKey.

(** [BigInt(String(x || dflt))] for an integer answer: a null or zero
    answer reads as [dflt]. *)
Definition bigint_or (dflt : Z) (x : option Z) : Z :=
  match x with
  | Some v => if v =? 0 then dflt else v
  | None => dflt
  end.

(** ** Configuration (casper.ts)

    The contract hashes are module constants that are filled in after
    deployment; the functions below read them through a [Config]. *)

Record Config : Type := {
  THAW_CORE_HASH : string;
  THCSPR_TOKEN_HASH : string;
  LENDING_POOL_HASH : string
}.

(** The constants as they stand in the source: the lending pool is not
    deployed yet. *)
Definition source_config : Config := {|
  THAW_CORE_HASH :=
    "hash-6dcfc9d903e1c8757503b44f0bd104fcbbe2cd9807dcdf0fe4e9044382596b79";
  THCSPR_TOKEN_HASH :=
    "hash-075f46fd3f4a5f382e8083dfd8ac9bbe9af012c0bc7acef2d84186be337f789e";
  LENDING_POOL_HASH := ""
|}.

(** [!s] for a string [s]. *)
Definition unset (s : string) : bool := String.eqb s "".

Module GAS_COSTS.
Definition leverageStake : Z := 15000000000.
End GAS_COSTS.

Definition EXCHANGE_RATE_PRECISION : Z := 1000000000000000000.

(** ** Share conversions (casper.ts) *)

Definition calculateThcsprFromCspr (csprAmount totalPooled totalSupply : Z)
  : result Z :=
  if (totalSupply =? 0) || (totalPooled =? 0) then Ok csprAmount
  else BigInt.div (csprAmount * totalSupply) totalPooled.

Definition calculateCsprFromThcspr (thcsprAmount totalPooled totalSupply : Z)
  : result Z :=
  if totalSupply =? 0 then Ok 0
  else BigInt.div (thcsprAmount * totalPooled) totalSupply.

(** ** The Casper SDK

    [CLValueBuilder.u8] and [DeployUtil.standardPayment] belong to
    casper-js-sdk. Each validates its operand and throws on a value it does
    not take; which values they take is the parameter. *)

Record SDK : Type := {
  u8_accepts : float → bool;
  payment_accepts : Z → bool
}.

Inductive CLValue : Type :=
  | CLU8 (n : float).

Module CLValueBuilder.
Definition u8 (sdk : SDK) (n : float) : result CLValue :=
  if u8_accepts sdk n then Ok (CLU8 n)
  else Throw (SdkError "CLValueBuilder.u8").
End CLValueBuilder.

Module DeployUtil.
Definition standardPayment (sdk : SDK) (amount : Z) : result Z :=
  if payment_accepts sdk amount then Ok amount
  else Throw (SdkError "DeployUtil.standardPayment").
End DeployUtil.

(** ** Deploy builders (casper.ts)

    A deploy is kept as what the builder decides: the sender, the target
    contract, the entry point, the runtime arguments and the payment. The
    hex decoding of the hash and the serialization belong to the SDK. *)

Record Deploy : Type := {
  account : string;
  contract_hash : string;
  entry_point : string;
  args : list (string * CLValue);
  payment : Z
}.

Definition buildLeverageStakeDeploy (sdk : SDK) (cfg : Config)
  (senderPublicKey : string) (amount : Z) (loops : float) : result Deploy :=
  if unset (LENDING_POOL_HASH cfg) then
    Throw (Error "LendingPool contract hash not configured")
  else if (loops <? 1)%float || (4 <? loops)%float then
    Throw (Error "Loops must be between 1 and 4")
  else
    loopsArg ← CLValueBuilder.u8 sdk loops;
    paid ← DeployUtil.standardPayment sdk (GAS_COSTS.leverageStake + amount);
    Ok {| account := senderPublicKey;
          contract_hash := LENDING_POOL_HASH cfg;
          entry_point := "leverage_stake";
          args := [("loops", loopsArg)];
          payment := paid |}.

(** ** Contract state queries (casper.ts) *)

Record PoolStats : Type := {
  totalPooledCspr : Z;
  totalThcsprSupply : Z;
  exchangeRate : Z;
  protocolFeeBps : float;
  minStake : Z;
  isPaused : bool
}.

Record LendingPoolStats : Type := {
  totalDeposits : Z;
  totalBorrowed : Z;
  availableLiquidity : Z;
  utilizationRate : float;
  collateralFactor : float;
  liquidationThreshold : float;
  liquidationBonus : float;
  baseRate : float
}.

Record UserPosition : Type := {
  collateral : Z;
  borrowed : Z;
  healthFactor : Z;
  maxBorrow : Z;
  lenderDeposit : Z
}.

Definition getPoolStats (cfg : Config) (node : Node) : result PoolStats :=
  if unset (THAW_CORE_HASH cfg) then
    Ok {| totalPooledCspr := 1000000000000000;
          totalThcsprSupply := 952380952380952;
          exchangeRate := 1050000000000000000;
          protocolFeeBps := 1000%float;
          minStake := 10000000000;
          isPaused := false |}
  else
    let totalPooled := queryContractState node (THAW_CORE_HASH cfg) "total_pooled_cspr" in
    let totalSupply := queryContractState node (THAW_CORE_HASH cfg) "total_thcspr_supply" in
    let feeBps := queryContractState node (THAW_CORE_HASH cfg) "protocol_fee_bps" in
    let minStake := queryContractState node (THAW_CORE_HASH cfg) "min_stake" in
    let isPaused := queryContractState node (THAW_CORE_HASH cfg) "is_paused" in
    let totalPooledBigInt := bigint_or 0 totalPooled in
    let totalSupplyBigInt := bigint_or 0 totalSupply in
    rate ← (if totalSupplyBigInt >? 0
            then BigInt.div (totalPooledBigInt * EXCHANGE_RATE_PRECISION)
                            totalSupplyBigInt
            else Ok EXCHANGE_RATE_PRECISION);
    Ok {| totalPooledCspr := totalPooledBigInt;
          totalThcsprSupply := totalSupplyBigInt;
          exchangeRate := rate;
          protocolFeeBps := BigInt.Number (bigint_or 1000 feeBps);
          minStake := bigint_or 10000000000 minStake;
          isPaused := negb (bigint_or 0 isPaused =? 0) |}.

Definition getLendingPoolStats (cfg : Config) (node : Node)
  : result LendingPoolStats :=
  if unset (LENDING_POOL_HASH cfg) then
    Ok {| totalDeposits := 500000000000000;
          totalBorrowed := 200000000000000;
          availableLiquidity := 300000000000000;
          utilizationRate := 40%float;
          collateralFactor := 75%float;
          liquidationThreshold := 80%float;
          liquidationBonus := 5%float;
          baseRate := 5%float |}
  else
    let totalDeposits := queryContractState node (LENDING_POOL_HASH cfg) "total_deposits" in
    let totalBorrowed := queryContractState node (LENDING_POOL_HASH cfg) "total_borrowed" in
    let totalDepositsBigInt := bigint_or 0 totalDeposits in
    let totalBorrowedBigInt := bigint_or 0 totalBorrowed in
    let availableLiquidity := totalDepositsBigInt - totalBorrowedBigInt in
    utilizationRate ← (if totalDepositsBigInt >? 0
                       then BigInt.Number <$>
                              BigInt.div (totalBorrowedBigInt * 100)
                                         totalDepositsBigInt
                       else Ok 0%float);
    Ok {| totalDeposits := totalDepositsBigInt;
          totalBorrowed := totalBorrowedBigInt;
          availableLiquidity := availableLiquidity;
          utilizationRate := utilizationRate;
          collateralFactor := 75%float;
          liquidationThreshold := 80%float;
          liquidationBonus := 5%float;
          baseRate := 5%float |}.

Definition getUserPosition (cfg : Config) (node : Node) (accountHash : string)
  : result UserPosition :=
  if unset (LENDING_POOL_HASH cfg) then
    Ok {| collateral := 0;
          borrowed := 0;
          healthFactor := EXCHANGE_RATE_PRECISION;
          maxBorrow := 0;
          lenderDeposit := 0 |}
  else
    let collateral := queryDictionary node (LENDING_POOL_HASH cfg) "collateral_balances" accountHash in
    let borrowed := queryDictionary node (LENDING_POOL_HASH cfg) "borrowed_balances" accountHash in
    let lenderDeposit := queryDictionary node (LENDING_POOL_HASH cfg) "lender_deposits" accountHash in
    let collateralBigInt := bigint_or 0 collateral in
    let borrowedBigInt := bigint_or 0 borrowed in
    healthFactor ← (if borrowedBigInt >? 0
                    then
                      collateralValue ← BigInt.div (collateralBigInt * 80) 100;
                      BigInt.div (collateralValue * EXCHANGE_RATE_PRECISION)
                                 borrowedBigInt
                    else Ok (EXCHANGE_RATE_PRECISION * 10));
    scaled ← BigInt.div (collateralBigInt * 75) 100;
    let maxBorrow := scaled - borrowedBigInt in
    Ok {| collateral := collateralBigInt;
          borrowed := borrowedBigInt;
          healthFactor := healthFactor;
          maxBorrow := if maxBorrow >? 0 then maxBorrow else 0;
          lenderDeposit := bigint_or 0 lenderDeposit |}.

(** ** Leverage page (app/leverage/page.tsx) *)

(** [x || d] on numbers: zero and NaN are falsy. *)
Definition number_or (x d : float) : float :=
  if PrimFloat.is_zero x || PrimFloat.is_nan x then d else x.

(** [lendingStats?.collateralFactor || 75] *)
Definition pageCollateralFactor (lendingStats : option LendingPoolStats)
  : float :=
  match lendingStats with
  | Some s => number_or (collateralFactor s) 75
  | None => 75
  end.

(** The [for] loop of [calculateExposure], entered with [i], [total] and
    [current]; every test of [i < loopCount] takes one unit of fuel. *)
Fixpoint calculateExposure_loop (fuel : nat) (collateralFactor loopCount : float)
  (i total current : float) : option (float * float) :=
  match fuel with
  | O => None
  | S fuel' =>
      if (i <? loopCount)%float then
        let current' := (current * (collateralFactor / 100))%float in
        let total' := (total + current')%float in
        calculateExposure_loop fuel' collateralFactor loopCount
          (i + 1)%float total' current'
      else Some (total, current)
  end.

Definition calculateExposure (fuel : nat) (collateralFactor : float)
  (initialAmount loopCount : float) : option float :=
  fst <$> calculateExposure_loop fuel collateralFactor loopCount
            1%float initialAmount initialAmount.

Definition effectiveLeverage (baseAmount totalExposure loops : float) : float :=
  if (0 <? baseAmount)%float then (totalExposure / baseAmount)%float else loops.

(** ** The specification's formulas

    The definitions of this section follow the words of the protocol
    specification, not the code; the theorems compare the two. *)

Module Spec.

(** [q] is [n / d] rounded down. *)
Definition is_floor (n d q : Z) : Prop := d * q <= n < d * q + d.

(** Shares to mint: [amount] when [total_shares == 0], else
    [amount * total_shares / total_pooled], rounded down. *)
Definition shares_to_mint (amount total_pooled total_shares : Z) : Z :=
  if total_shares =? 0 then amount else amount * total_shares / total_pooled.

(** [principal_due = shares * total_pooled / total_shares], rounded down. *)
Definition principal_due (shares total_pooled total_shares : Z) : Z :=
  shares * total_pooled / total_shares.

(** The pool invariant [total_shares == 0 ⇒ total_pooled == 0] over
    unsigned quantities. *)
Definition pool_ok (total_pooled total_shares : Z) : Prop :=
  0 <= total_pooled ∧ 0 <= total_shares ∧ (total_shares = 0 → total_pooled = 0).

(** [health_factor = (collateral_shares * R * liquidation_threshold_bps) /
    (debt * 10000)]; with [R] scaled by 1e18 the result is at that scale. *)
Definition liquidation_threshold_bps : Z := 8000.

Definition health_factor (collateral_shares R debt : Z) : Z :=
  collateral_shares * R * liquidation_threshold_bps / (debt * 10000).

(** [max_borrow = max(0, collateral_shares * R * collateral_factor_bps/10000
    - debt)]; [R] is scaled by 1e18, the result is in native tokens. *)
Definition collateral_factor_bps : Z := 7500.

Definition max_borrow (collateral_shares R debt : Z) : Z :=
  Z.max 0 (collateral_shares * R * collateral_factor_bps
             / (10000 * EXCHANGE_RATE_PRECISION) - debt).

(** [utilization_rate = total_borrowed / total_deposits] (0 when deposits
    are 0), as a number. *)
Definition utilization_rate (total_borrowed total_deposits : Z) : float :=
  if total_deposits =? 0 then 0%float
  else (BigInt.Number total_borrowed / BigInt.Number total_deposits)%float.

End Spec.

(** ** What the queries read for an account and for the lending pool *)

Definition collateral_shares (cfg : Config) (node : Node) (accountHash : string)
  : Z :=
  bigint_or 0 (queryDictionary node (LENDING_POOL_HASH cfg)
                 "collateral_balances" accountHash).

Definition debt (cfg : Config) (node : Node) (accountHash : string) : Z :=
  bigint_or 0 (queryDictionary node (LENDING_POOL_HASH cfg)
                 "borrowed_balances" accountHash).

Definition total_deposits (cfg : Config) (node : Node) : Z :=
  bigint_or 0 (queryContractState node (LENDING_POOL_HASH cfg) "total_deposits").

Definition total_borrowed (cfg : Config) (node : Node) : Z :=
  bigint_or 0 (queryContractState node (LENDING_POOL_HASH cfg) "total_borrowed").

(** The current exchange rate, as [getPoolStats] derives it. *)
Definition current_rate (cfg : Config) (node : Node) : result Z :=
  exchangeRate <$> getPoolStats cfg node.

(** ** Sample deployments *)

Module Sample.

(** A configuration with every contract deployed. *)
Definition deployed : Config := {|
  THAW_CORE_HASH := THAW_CORE_HASH source_config;
  THCSPR_TOKEN_HASH := THCSPR_TOKEN_HASH source_config;
  LENDING_POOL_HASH := "hash-1e4d"
|}.

Definition staking (pooled supply : Z) : Contract := {|
  named_keys := {[ "total_pooled_cspr" := pooled;
                   "total_thcspr_supply" := supply ]};
  dictionaries := ∅
|}.

Definition lending (deposits lent : Z) (collaterals debts : gmap string Z)
  : Contract := {|
  named_keys := {[ "total_deposits" := deposits; "total_borrowed" := lent ]};
  dictionaries := {[ "collateral_balances" := collaterals;
                     "borrowed_balances" := debts ]}
|}.

Definition node_of (core pool : Contract) : Node := {|
  contracts := {[ THAW_CORE_HASH deployed := core;
                  LENDING_POOL_HASH deployed := pool ]}
|}.

(** Rate 2.0; alice pledged 100 shares and owes 50. *)
Definition appreciated : Node :=
  node_of (staking 2000 1000)
          (lending 500 200 {[ "alice" := 100 ]} {[ "alice" := 50 ]}).

(** Rate 1.0; bob pledged one share and owes one token, carol pledged 100
    shares and owes nothing. *)
Definition at_par : Node :=
  node_of (staking 1000 1000)
          (lending 500 200 {[ "bob" := 1; "carol" := 100 ]} {[ "bob" := 1 ]}).

End Sample.

(** ** Withdrawal requests (casper.ts, app/page.tsx, app/dashboard/page.tsx)

    The two dictionaries of the core contract that [getUserWithdrawals]
    reads, typed: the ids an account owns, [None] when the answer is null or
    no array, and the requests by id. *)

Module Withdrawal.
Record t : Type := {
  id : Z;
  user : string;
  csprAmount : Z;
  thcsprBurned : Z;
  requestTimestamp : float;
  claimableTimestamp : float;
  claimed : bool
}.
End Withdrawal.

Record WithdrawalStore : Type := {
  user_withdrawals : gmap string (list Z);
  withdrawals : gmap Z Withdrawal.t
}.

(** The lookups that fail answer null, and [filter(Boolean)] drops them. *)
Definition getUserWithdrawals (cfg : Config) (store : WithdrawalStore)
  (accountHash : string) : list Withdrawal.t :=
  if unset (THAW_CORE_HASH cfg) then []
  else
    match user_withdrawals store !! accountHash with
    | None => []
    | Some withdrawalIds => omap (λ i, withdrawals store !! i) withdrawalIds
    end.

(** [withdrawals.filter((w) => !w.claimed)] *)
Definition pendingWithdrawals (ws : list Withdrawal.t) : list Withdrawal.t :=
  List.filter (λ w, negb (Withdrawal.claimed w)) ws.

(** [pending.filter((w) => w.claimableTimestamp <= Date.now())] *)
Definition claimableWithdrawals (now : float) (pending : list Withdrawal.t)
  : list Withdrawal.t :=
  List.filter (λ w, (Withdrawal.claimableTimestamp w <=? now)%float) pending.

(** ** What [getPoolStats] reads for the staking pool *)

Definition total_pooled (cfg : Config) (node : Node) : Z :=
  bigint_or 0 (queryContractState node (THAW_CORE_HASH cfg) "total_pooled_cspr").

Definition total_supply (cfg : Config) (node : Node) : Z :=
  bigint_or 0
    (queryContractState node (THAW_CORE_HASH cfg) "total_thcspr_supply").

(** ** Borrow page (app/borrow/page.tsx) *)


(** Collateral Value: [(collateral * exchangeRate) / EXCHANGE_RATE_PRECISION]. *)
Definition collateralValue (collateral : Z) (poolStats : PoolStats)
  : result Z :=
  BigInt.div (collateral * exchangeRate poolStats) EXCHANGE_RATE_PRECISION.

(** ** Rates shown on the pages *)

(** Leverage and borrow pages:
    [baseRate + (utilizationRate * baseRate) / 50], with the page's default
    while the statistics are not loaded. *)
Definition borrowApy (dflt : float) (lendingStats : option LendingPoolStats)
  : float :=
  match lendingStats with
  | Some s => (baseRate s + utilizationRate s * baseRate s / 50)%float
  | None => dflt
  end.

(** Lend page: [baseRate + (utilizationRate * baseRate) / 100]. *)
Definition estimatedApy (poolStats : option LendingPoolStats) : float :=
  match poolStats with
  | Some s => (baseRate s + utilizationRate s * baseRate s / 100)%float
  | None => 0%float
  end.

(** ** Health factor gauge (components/health-factor.tsx) *)

Module Math.

(** [Math.max(a, b)]: NaN wins, and +0 is above -0. *)
Definition max (a b : float) : float :=
  if PrimFloat.is_nan a || PrimFloat.is_nan b then nan
  else if (a <? b)%float then b
  else if (b <? a)%float then a
  else if PrimFloat.get_sign a then b else a.

(** [Math.min(a, b)]: NaN wins, and -0 is below +0. *)
Definition min (a b : float) : float :=
  if PrimFloat.is_nan a || PrimFloat.is_nan b then nan
  else if (a <? b)%float then a
  else if (b <? a)%float then b
  else if PrimFloat.get_sign a then a else b.

End Math.

Definition healthFactorNum (healthFactor : Z) : float :=
  (BigInt.Number healthFactor / BigInt.Number EXCHANGE_RATE_PRECISION)%float.

Definition getHealthColor (healthFactorNum : float) : string :=
  if (2 <=? healthFactorNum)%float then "text-green-500"
  else if (1.5 <=? healthFactorNum)%float then "text-yellow-500"
  else if (0x1.199999999999ap+0 <=? healthFactorNum)%float
       then "text-orange-500"
  else "text-red-500".

Definition getHealthStatus (healthFactorNum : float) : string :=
  if (2 <=? healthFactorNum)%float then "Healthy"
  else if (1.5 <=? healthFactorNum)%float then "Moderate"
  else if (0x1.199999999999ap+0 <=? healthFactorNum)%float then "At Risk"
  else "Danger".

Definition getProgressColor (healthFactorNum : float) : string :=
  if (2 <=? healthFactorNum)%float then "bg-green-500"
  else if (1.5 <=? healthFactorNum)%float then "bg-yellow-500"
  else if (0x1.199999999999ap+0 <=? healthFactorNum)%float then "bg-orange-500"
  else "bg-red-500".

Definition progressPercentage (healthFactorNum : float) : float :=
  Math.min 100 (Math.max 0 ((healthFactorNum - 1) / 2 * 100))%float.

(** ** Address display (lib/utils.ts) *)

(** [s.slice(0, n)] and [s.slice(-n)] for a count [n]; [slice(-0)] is
    [slice(0)], the whole string. *)
Definition slice_to (n : nat) (s : string) : string := String.substring 0 n s.

Definition slice_last (n : nat) (s : string) : string :=
  match n with
  | O => s
  | S _ => String.substring (String.length s - n) n s
  end.

Definition shortenAddress (address : string) (chars : nat) : string :=
  (slice_to (chars + 2) address ++ "..." ++ slice_last chars address)%string.

(** ** More sample data *)

(** An SDK for the worked examples: [u8] takes the whole numbers 0..255, a
    payment is an unsigned 512-bit amount. *)
Definition sample_sdk : SDK := {|
  u8_accepts := λ n, existsb (PrimFloat.eqb n) (BigInt.Number <$> seqZ 0 256);
  payment_accepts := λ amount, (0 <=? amount) && (amount <? 2 ^ 512)
|}.

Module Crowd.

(** Rate 1.5; ann pledged 100 shares and owes 90, ben pledged 200 shares
    and owes 60. *)
Definition node : Node :=
  Sample.node_of (Sample.staking 1500 1000)
    (Sample.lending 1000 400 {[ "ann" := 100; "ben" := 200 ]}
                             {[ "ann" := 90; "ben" := 60 ]}).

Definition request (i : Z) (due : float) (done : bool) : Withdrawal.t := {|
  Withdrawal.id := i;
  Withdrawal.user := "ann";
  Withdrawal.csprAmount := 5000000000;
  Withdrawal.thcsprBurned := 4000000000;
  Withdrawal.requestTimestamp := (due - 50400000)%float;
  Withdrawal.claimableTimestamp := due;
  Withdrawal.claimed := done
|}.

(** ann owns requests 1, 2, 3 and 7; request 7 was never stored. *)
Definition store : WithdrawalStore := {|
  user_withdrawals := {[ "ann" := [1; 2; 3; 7] ]};
  withdrawals := {[ 1 := request 1 1000 true;
                    2 := request 2 2000 false;
                    3 := request 3 9000 false ]}
|}.

End Crowd.

(** * Properties *)

(** Closed facts are settled by running the definitions. *)
Ltac by_evaluation :=
  vm_compute; first [reflexivity | discriminate | intros; discriminate].

(** ** bigint division *)

Lemma BigInt_div_nonzero a b : b ≠ 0 → BigInt.div a b = Ok (Z.quot a b).
Proof.
  intros Hb. unfold BigInt.div.
  destruct (Z.eqb_spec b 0) as [->|_]; [contradiction|reflexivity].
Qed.

(** On unsigned operands truncation and rounding down coincide. *)
Lemma BigInt_div_floor a b : 0 <= a → 0 < b → BigInt.div a b = Ok (a / b).
Proof.
  intros Ha Hb. rewrite BigInt_div_nonzero by lia.
  f_equal. apply Z.quot_div_nonneg; lia.
Qed.

Lemma is_floor_div n d : 0 < d → Spec.is_floor n d (n / d).
Proof.
  intros Hd. unfold Spec.is_floor.
  pose proof (Z.mul_div_le n d Hd).
  pose proof (Z.mul_succ_div_gt n d Hd). lia.
Qed.

Lemma is_floor_unique n d q : Spec.is_floor n d q → q = n / d.
Proof.
  unfold Spec.is_floor. intros [Hlo Hhi].
  assert (0 < d) by lia.
  apply Z.div_unique with (r := n - d * q); lia.
Qed.

(** ** Share conversions *)

(** C1, as amended: over unsigned operands [calculateThcsprFromCspr] never
    throws; it returns the amount itself when the supply or the pooled
    balance is zero, and [amount * supply / pooled] rounded down otherwise. *)
Theorem calculateThcsprFromCspr_spec (amount pooled supply : Z) :
  0 <= amount → 0 <= pooled → 0 <= supply →
  (supply = 0 ∨ pooled = 0 →
     calculateThcsprFromCspr amount pooled supply = Ok amount) ∧
  (0 < supply → 0 < pooled →
     calculateThcsprFromCspr amount pooled supply
       = Ok (amount * supply / pooled) ∧
     Spec.shares_to_mint amount pooled supply = amount * supply / pooled ∧
     Spec.is_floor (amount * supply) pooled (amount * supply / pooled)).
Proof.
  intros Ha Hp Hs. unfold calculateThcsprFromCspr. split.
  - intros [->| ->]; [reflexivity|].
    rewrite Z.eqb_refl, orb_true_r. reflexivity.
  - intros Hs' Hp'.
    destruct (Z.eqb_spec supply 0) as [?|_]; [lia|].
    destruct (Z.eqb_spec pooled 0) as [?|_]; [lia|]. cbn [orb].
    split; [apply BigInt_div_floor; nia|].
    split; [|apply is_floor_div; assumption].
    unfold Spec.shares_to_mint.
    destruct (Z.eqb_spec supply 0); [lia|reflexivity].
Qed.

Lemma calculateThcsprFromCspr_spec_witness :
  calculateThcsprFromCspr 100 1199 1100 = Ok 91 ∧
  calculateThcsprFromCspr 5 0 3 = Ok 5.
Proof.
  pose proof (calculateThcsprFromCspr_spec 100 1199 1100
                ltac:(lia) ltac:(lia) ltac:(lia)) as [_ H].
  pose proof (calculateThcsprFromCspr_spec 5 0 3
                ltac:(lia) ltac:(lia) ltac:(lia)) as [H0 _].
  split.
  - destruct H as [-> _]; [lia|lia|reflexivity].
  - apply H0. right. reflexivity.
Defined.

(** C1, counterexample: with shares outstanding ([supply = 3]) and an empty
    pooled balance the first branch is taken and the amount is returned,
    where the specification's second branch has no quotient at all. *)
Lemma calculateThcsprFromCspr_empty_pool_counterexample :
  calculateThcsprFromCspr 5 0 3 = Ok 5 ∧
  Spec.shares_to_mint 5 0 3 ≠ 5 ∧
  ¬ (∃ q, Spec.is_floor (5 * 3) 0 q).
Proof.
  split; [reflexivity|]. split; [discriminate|].
  intros [q Hq]. unfold Spec.is_floor in Hq. lia.
Qed.

(** C2: with shares outstanding, [calculateCsprFromThcspr] returns
    [shares * pooled / supply] rounded down. *)
Theorem calculateCsprFromThcspr_floor (shares pooled supply : Z) :
  0 <= shares → 0 <= pooled → 0 < supply →
  calculateCsprFromThcspr shares pooled supply
    = Ok (Spec.principal_due shares pooled supply) ∧
  Spec.is_floor (shares * pooled) supply
    (Spec.principal_due shares pooled supply).
Proof.
  intros Hsh Hp Hs. unfold calculateCsprFromThcspr, Spec.principal_due.
  destruct (Z.eqb_spec supply 0) as [?|_]; [lia|].
  split; [apply BigInt_div_floor; nia|apply is_floor_div; assumption].
Qed.

Lemma calculateCsprFromThcspr_floor_witness :
  calculateCsprFromThcspr 91 1199 1100 = Ok 99 ∧ Spec.is_floor (91 * 1199) 1100 99.
Proof.
  exact (calculateCsprFromThcspr_floor 91 1199 1100
           ltac:(lia) ltac:(lia) ltac:(lia)).
Defined.

(** C9: against an empty supply the valuation is zero; the division is
    never reached, and for no operands at all does the function throw. *)
Theorem calculateCsprFromThcspr_empty_supply :
  (∀ thcsprAmount totalPooled : Z,
     calculateCsprFromThcspr thcsprAmount totalPooled 0 = Ok 0) ∧
  (∀ thcsprAmount totalPooled totalSupply : Z,
     ∃ r, calculateCsprFromThcspr thcsprAmount totalPooled totalSupply = Ok r).
Proof.
  split; [reflexivity|].
  intros a p s. unfold calculateCsprFromThcspr.
  destruct (Z.eqb_spec s 0) as [_|Hs]; [eauto|].
  rewrite BigInt_div_nonzero by assumption. eauto.
Qed.

(** ** Stake then unstake *)

(** Minting never over-issues: [minted * pooled <= amount * supply]. *)
Lemma calculateThcsprFromCspr_backed (amount pooled supply : Z) :
  0 <= amount → Spec.pool_ok pooled supply →
  ∃ minted, calculateThcsprFromCspr amount pooled supply = Ok minted ∧
            0 <= minted <= amount * supply + amount ∧
            minted * pooled <= amount * supply ∧
            (supply = 0 → minted = amount) ∧
            (0 < pooled → minted = amount * supply / pooled).
Proof.
  intros Ha (Hp & Hs & Hinv).
  pose proof (calculateThcsprFromCspr_spec amount pooled supply Ha Hp Hs)
    as [Hzero Hpos].
  destruct (Z.eq_dec supply 0) as [Hs0|Hs0].
  - exists amount. rewrite Hzero by auto. specialize (Hinv Hs0). subst.
    repeat split; lia.
  - destruct (Z.eq_dec pooled 0) as [Hp0|Hp0].
    + exists amount. rewrite Hzero by auto. subst pooled.
      repeat split; nia.
    + destruct Hpos as (-> & _ & Hfl); [lia|lia|].
      exists (amount * supply / pooled). unfold Spec.is_floor in Hfl.
      assert (0 <= amount * supply / pooled) by (apply Z.div_pos; nia).
      repeat split; try nia; try lia.
Qed.

(** C3: staking [A] into a pool and unstaking the minted shares at once
    returns at most [A]; it returns exactly [A] when [A * supply] is a
    multiple of [pooled] (the amount divides evenly by the rate), and on the
    empty pool, whose rate counts as one. *)
Theorem stake_unstake_round_trip (A pooled supply : Z) :
  0 <= A → Spec.pool_ok pooled supply →
  ∃ minted due,
    calculateThcsprFromCspr A pooled supply = Ok minted ∧
    calculateCsprFromThcspr minted (pooled + A) (supply + minted) = Ok due ∧
    due <= A ∧
    (0 < pooled → (A * supply) mod pooled = 0 → due = A) ∧
    (supply = 0 → due = A).
Proof.
  intros HA Hpool.
  destruct (calculateThcsprFromCspr_backed A pooled supply HA Hpool)
    as (minted & Hmint & Hrange & Hback & Hempty & Hquot).
  destruct Hpool as (Hp & Hs & Hinv).
  exists minted. rewrite Hmint.
  destruct (Z.eq_dec (supply + minted) 0) as [Hz|Hnz].
  - (* nothing minted into an empty supply *)
    exists 0. unfold calculateCsprFromThcspr. rewrite Hz. cbn.
    assert (supply = 0) as Hs0 by lia. specialize (Hempty Hs0).
    repeat split; lia.
  - assert (0 < supply + minted) as Hpos by lia.
    pose proof (calculateCsprFromThcspr_floor minted (pooled + A)
                  (supply + minted) ltac:(lia) ltac:(lia) Hpos) as [Hdue Hfl].
    exists (Spec.principal_due minted (pooled + A) (supply + minted)).
    unfold Spec.principal_due in *. unfold Spec.is_floor in Hfl.
    assert (minted * (pooled + A) <= A * (supply + minted)) as Hle by nia.
    repeat split; try assumption.
    + apply Z.div_le_upper_bound; [assumption|nia].
    + intros Hp' Hmod.
      assert (minted * pooled = A * supply) as Hexact.
      { rewrite (Hquot Hp'). apply Z.div_exact in Hmod; lia. }
      replace (minted * (pooled + A)) with (A * (supply + minted)) by nia.
      apply Z.div_mul. lia.
    + intros Hs0. specialize (Hinv Hs0). specialize (Hempty Hs0). subst.
      rewrite !Z.add_0_l. apply Z.div_mul. lia.
Qed.

Lemma stake_unstake_round_trip_witness :
  ∃ minted due,
    calculateThcsprFromCspr 100 1199 1100 = Ok minted ∧
    calculateCsprFromThcspr minted (1199 + 100) (1100 + minted) = Ok due ∧
    due <= 100 ∧
    (0 < 1199 → (100 * 1100) mod 1199 = 0 → due = 100) ∧
    (1100 = 0 → due = 100).
Proof.
  apply (stake_unstake_round_trip 100 1199 1100); [lia|].
  unfold Spec.pool_ok. lia.
Defined.

(** The invariant is needed: a pool that holds tokens but no shares hands
    the first staker the whole balance. *)
Remark round_trip_without_invariant :
  calculateThcsprFromCspr 1 1 0 = Ok 1 ∧
  calculateCsprFromThcspr 1 (1 + 1) (0 + 1) = Ok 2.
Proof. split; reflexivity. Qed.

(** ** Account positions and pool statistics *)

(** With the lending pool undeployed, [getUserPosition] answers its
    placeholder, whatever the node holds. *)
Lemma getUserPosition_placeholder cfg node accountHash :
  unset (LENDING_POOL_HASH cfg) = true →
  getUserPosition cfg node accountHash
    = Ok {| collateral := 0; borrowed := 0;
            healthFactor := EXCHANGE_RATE_PRECISION;
            maxBorrow := 0; lenderDeposit := 0 |}.
Proof. intros H. unfold getUserPosition. rewrite H. reflexivity. Qed.

(** The threshold quotient of the code against the specification's single
    division, at rate one. *)
Lemma health_factor_at_par (c d : Z) :
  0 <= c → 0 < d →
  c * 80 / 100 * EXCHANGE_RATE_PRECISION / d
    <= Spec.health_factor c EXCHANGE_RATE_PRECISION d ∧
  (c mod 5 = 0 →
   c * 80 / 100 * EXCHANGE_RATE_PRECISION / d
     = Spec.health_factor c EXCHANGE_RATE_PRECISION d).
Proof.
  intros Hc Hd.
  unfold Spec.health_factor, Spec.liquidation_threshold_bps,
    EXCHANGE_RATE_PRECISION.
  replace (c * 1000000000000000000 * 8000)
    with (c * 800000000000000000 * 10000) by lia.
  rewrite Z.div_mul_cancel_r by lia.
  pose proof (Z.mul_div_le (c * 80) 100 ltac:(lia)) as Hfl.
  split.
  - apply Z.div_le_mono; lia.
  - intros Hmod. f_equal.
    apply Z.div_exact in Hmod; [|lia].
    rewrite Hmod at 1.
    replace (5 * (c / 5) * 80) with (4 * (c / 5) * 100) by lia.
    rewrite Z.div_mul by lia. lia.
Qed.

Lemma max_borrow_at_par (c d : Z) :
  Z.max 0 (c * 75 / 100 - d) = Spec.max_borrow c EXCHANGE_RATE_PRECISION d.
Proof.
  unfold Spec.max_borrow, Spec.collateral_factor_bps, EXCHANGE_RATE_PRECISION.
  replace (c * 1000000000000000000 * 7500)
    with (c * 75 * (100 * 1000000000000000000)) by lia.
  replace (10000 * 1000000000000000000)
    with (100 * (100 * 1000000000000000000)) by lia.
  rewrite Z.div_mul_cancel_r by lia. reflexivity.
Qed.

Section Deployed.

(** The lending pool has been deployed and its hash filled in. *)
Context (cfg : Config) (node : Node).
Hypothesis lending_deployed : unset (LENDING_POOL_HASH cfg) = false.

(** The position is computed from the two balances alone, and no division
    can throw. *)
Lemma getUserPosition_deployed accountHash :
  let c := collateral_shares cfg node accountHash in
  let d := debt cfg node accountHash in
  getUserPosition cfg node accountHash
    = Ok {| collateral := c;
            borrowed := d;
            healthFactor :=
              if d >? 0
              then Z.quot (Z.quot (c * 80) 100 * EXCHANGE_RATE_PRECISION) d
              else EXCHANGE_RATE_PRECISION * 10;
            maxBorrow := Z.max 0 (Z.quot (c * 75) 100 - d);
            lenderDeposit :=
              bigint_or 0 (queryDictionary node (LENDING_POOL_HASH cfg)
                             "lender_deposits" accountHash) |}.
Proof.
  intros c d. unfold getUserPosition. rewrite lending_deployed.
  fold (collateral_shares cfg node accountHash).
  fold (debt cfg node accountHash). fold c. fold d.
  rewrite !(BigInt_div_nonzero _ 100) by discriminate.
  assert (∀ m, (if m >? 0 then m else 0) = Z.max 0 m) as Hmax.
  { intros m. destruct (Z.gtb_spec m 0); lia. }
  destruct (Z.gtb_spec d 0) as [Hd|Hd]; cbn [mbind result_bind].
  - rewrite BigInt_div_nonzero by lia. cbn [mbind result_bind].
    rewrite Hmax. reflexivity.
  - rewrite Hmax. reflexivity.
Qed.

(** C4, as amended: for a position with debt, the health factor is
    [floor(floor(collateral * 80 / 100) * 1e18 / debt)]. The exchange rate
    is not read: shares count at rate one, where the value is at most the
    specification's, and equal to it when the collateral is a multiple
    of five. *)
Theorem getUserPosition_healthFactor accountHash :
  0 <= collateral_shares cfg node accountHash →
  0 < debt cfg node accountHash →
  let c := collateral_shares cfg node accountHash in
  let d := debt cfg node accountHash in
  healthFactor <$> getUserPosition cfg node accountHash
    = Ok (c * 80 / 100 * EXCHANGE_RATE_PRECISION / d) ∧
  c * 80 / 100 * EXCHANGE_RATE_PRECISION / d
    <= Spec.health_factor c EXCHANGE_RATE_PRECISION d ∧
  (c mod 5 = 0 →
   healthFactor <$> getUserPosition cfg node accountHash
     = Ok (Spec.health_factor c EXCHANGE_RATE_PRECISION d)).
Proof.
  intros Hc Hd. cbv zeta. rewrite (getUserPosition_deployed accountHash).
  generalize dependent (debt cfg node accountHash).
  generalize dependent (collateral_shares cfg node accountHash).
  intros c Hc d Hd. cbn [fmap result_fmap healthFactor].
  destruct (Z.gtb_spec d 0) as [_|?]; [|lia].
  assert (0 <= c * 80 / 100) by (apply Z.div_pos; lia).
  rewrite (Z.quot_div_nonneg (c * 80) 100) by lia.
  rewrite Z.quot_div_nonneg by (unfold EXCHANGE_RATE_PRECISION; lia).
  destruct (health_factor_at_par c d Hc Hd) as [Hle Heq].
  split; [reflexivity|]. split; [exact Hle|].
  intros Hmod. f_equal. apply Heq, Hmod.
Qed.

(** C5, as amended: the borrowing headroom is
    [max(0, floor(collateral * 75 / 100) - debt)], never negative. The
    exchange rate is not read: it is the specification's value at rate one. *)
Theorem getUserPosition_maxBorrow accountHash :
  0 <= collateral_shares cfg node accountHash →
  let c := collateral_shares cfg node accountHash in
  let d := debt cfg node accountHash in
  maxBorrow <$> getUserPosition cfg node accountHash
    = Ok (Z.max 0 (c * 75 / 100 - d)) ∧
  Z.max 0 (c * 75 / 100 - d) = Spec.max_borrow c EXCHANGE_RATE_PRECISION d ∧
  0 <= Z.max 0 (c * 75 / 100 - d).
Proof.
  intros Hc. cbv zeta. rewrite (getUserPosition_deployed accountHash).
  generalize (debt cfg node accountHash).
  generalize dependent (collateral_shares cfg node accountHash).
  intros c Hc d. cbn [fmap result_fmap maxBorrow].
  rewrite Z.quot_div_nonneg by lia.
  split; [reflexivity|]. split; [apply max_borrow_at_par|lia].
Qed.

Lemma getLendingPoolStats_deployed :
  let b := total_borrowed cfg node in
  let d := total_deposits cfg node in
  getLendingPoolStats cfg node
    = Ok {| totalDeposits := d;
            totalBorrowed := b;
            availableLiquidity := d - b;
            utilizationRate :=
              if d >? 0 then BigInt.Number (Z.quot (b * 100) d) else 0%float;
            collateralFactor := 75%float;
            liquidationThreshold := 80%float;
            liquidationBonus := 5%float;
            baseRate := 5%float |}.
Proof.
  intros b d. unfold getLendingPoolStats. rewrite lending_deployed.
  fold (total_borrowed cfg node). fold (total_deposits cfg node).
  fold b. fold d.
  destruct (Z.gtb_spec d 0) as [Hd|Hd]; [|reflexivity].
  rewrite BigInt_div_nonzero by lia. reflexivity.
Qed.

(** C8, as amended: the utilization rate is the whole percentage
    [floor(100 * total_borrowed / total_deposits)] converted to a number, and
    0 when nothing is deposited; it lies in 0..100 while borrowing stays
    within deposits. *)
Theorem getLendingPoolStats_utilizationRate :
  0 <= total_borrowed cfg node →
  0 <= total_deposits cfg node →
  let b := total_borrowed cfg node in
  let d := total_deposits cfg node in
  utilizationRate <$> getLendingPoolStats cfg node
    = Ok (if d =? 0 then 0%float else BigInt.Number (100 * b / d)) ∧
  (b <= d → 0 <= 100 * b / d <= 100).
Proof.
  intros Hb Hd. cbv zeta. rewrite getLendingPoolStats_deployed.
  generalize dependent (total_deposits cfg node).
  generalize dependent (total_borrowed cfg node).
  intros b Hb d Hd. cbn [fmap result_fmap utilizationRate]. split.
  - destruct (Z.eqb_spec d 0) as [->|Hnz]; [reflexivity|].
    destruct (Z.gtb_spec d 0) as [_|?]; [|lia].
    rewrite Z.quot_div_nonneg by lia.
    rewrite (Z.mul_comm b 100). reflexivity.
  - intros Hbd. destruct (Z.eq_dec d 0) as [->|Hnz].
    + rewrite Z.div_0_r. lia.
    + split; [apply Z.div_pos; lia|].
      apply Z.div_le_upper_bound; lia.
Qed.

End Deployed.

(** C10, as amended: once the lending pool is deployed, a position without
    debt has health factor [10 * 1e18], the all-zero position included, and
    nothing is divided by the debt; while it is not deployed, the
    placeholder position carries [1e18]. *)
Theorem getUserPosition_no_debt cfg node accountHash :
  (unset (LENDING_POOL_HASH cfg) = false →
   debt cfg node accountHash = 0 →
   healthFactor <$> getUserPosition cfg node accountHash
     = Ok (10 * EXCHANGE_RATE_PRECISION)) ∧
  (unset (LENDING_POOL_HASH cfg) = true →
   getUserPosition cfg node accountHash
     = Ok {| collateral := 0; borrowed := 0;
             healthFactor := EXCHANGE_RATE_PRECISION;
             maxBorrow := 0; lenderDeposit := 0 |}).
Proof.
  split; [|apply getUserPosition_placeholder].
  intros Hcfg Hd.
  rewrite (getUserPosition_deployed cfg node Hcfg accountHash), Hd.
  reflexivity.
Qed.

(** Deployed or not, the collateral factor handed to the pages is 75. *)
Lemma getLendingPoolStats_collateralFactor cfg node stats :
  getLendingPoolStats cfg node = Ok stats →
  pageCollateralFactor (Some stats) = 75%float.
Proof.
  destruct (unset (LENDING_POOL_HASH cfg)) eqn:Hcfg.
  - unfold getLendingPoolStats. rewrite Hcfg. intros [= <-]. reflexivity.
  - rewrite (getLendingPoolStats_deployed cfg node Hcfg).
    intros [= <-]. reflexivity.
Qed.

(** *** Worked positions *)

Lemma getUserPosition_healthFactor_witness :
  healthFactor <$> getUserPosition Sample.deployed Sample.appreciated "alice"
    = Ok 1600000000000000000.
Proof.
  destruct (getUserPosition_healthFactor Sample.deployed Sample.appreciated
              eq_refl "alice") as [H _].
  - by_evaluation.
  - by_evaluation.
  - vm_compute in H. vm_compute. exact H.
Defined.

(** C4, counterexample: at rate 2.0 the specification's health factor for
    (100 shares, debt 50) is 3.2, the code's is 1.6; at rate 1.0 the
    specification gives 0.8 for (1 share, debt 1), the code 0. *)
Lemma getUserPosition_healthFactor_counterexample :
  (current_rate Sample.deployed Sample.appreciated = Ok 2000000000000000000 ∧
   collateral_shares Sample.deployed Sample.appreciated "alice" = 100 ∧
   debt Sample.deployed Sample.appreciated "alice" = 50 ∧
   healthFactor <$> getUserPosition Sample.deployed Sample.appreciated "alice"
     = Ok 1600000000000000000 ∧
   Spec.health_factor 100 2000000000000000000 50 = 3200000000000000000) ∧
  (current_rate Sample.deployed Sample.at_par = Ok 1000000000000000000 ∧
   collateral_shares Sample.deployed Sample.at_par "bob" = 1 ∧
   debt Sample.deployed Sample.at_par "bob" = 1 ∧
   healthFactor <$> getUserPosition Sample.deployed Sample.at_par "bob" = Ok 0 ∧
   Spec.health_factor 1 1000000000000000000 1 = 800000000000000000).
Proof. repeat split; by_evaluation. Qed.

Lemma getUserPosition_maxBorrow_witness :
  maxBorrow <$> getUserPosition Sample.deployed Sample.appreciated "alice"
    = Ok 25.
Proof.
  destruct (getUserPosition_maxBorrow Sample.deployed Sample.appreciated
              eq_refl "alice") as [H _].
  - by_evaluation.
  - vm_compute in H. vm_compute. exact H.
Defined.

(** C5, counterexample: at rate 2.0, 100 pledged shares are worth 200 and
    the specification allows [150 - 50 = 100]; the code allows
    [75 - 50 = 25]. *)
Lemma getUserPosition_maxBorrow_counterexample :
  current_rate Sample.deployed Sample.appreciated = Ok 2000000000000000000 ∧
  collateral_shares Sample.deployed Sample.appreciated "alice" = 100 ∧
  debt Sample.deployed Sample.appreciated "alice" = 50 ∧
  maxBorrow <$> getUserPosition Sample.deployed Sample.appreciated "alice"
    = Ok 25 ∧
  Spec.max_borrow 100 2000000000000000000 50 = 100.
Proof. repeat split; by_evaluation. Qed.

Lemma getUserPosition_no_debt_witness :
  healthFactor <$> getUserPosition Sample.deployed Sample.at_par "carol"
    = Ok 10000000000000000000 ∧
  healthFactor <$> getUserPosition Sample.deployed Sample.at_par "dave"
    = Ok 10000000000000000000.
Proof.
  split.
  - exact (proj1 (getUserPosition_no_debt Sample.deployed Sample.at_par "carol")
             eq_refl eq_refl).
  - exact (proj1 (getUserPosition_no_debt Sample.deployed Sample.at_par "dave")
             eq_refl eq_refl).
Defined.

(** C10, counterexample: with the constants of the source the lending pool
    hash is empty, and every account gets the placeholder: no debt, health
    factor [1e18]. *)
Lemma getUserPosition_no_debt_counterexample :
  unset (LENDING_POOL_HASH source_config) = true ∧
  borrowed <$> getUserPosition source_config Sample.at_par "carol" = Ok 0 ∧
  healthFactor <$> getUserPosition source_config Sample.at_par "carol"
    = Ok EXCHANGE_RATE_PRECISION ∧
  EXCHANGE_RATE_PRECISION ≠ 10 * EXCHANGE_RATE_PRECISION.
Proof. repeat split. discriminate. Qed.

Lemma getLendingPoolStats_utilizationRate_witness :
  utilizationRate <$> getLendingPoolStats Sample.deployed Sample.at_par
    = Ok 40%float.
Proof.
  destruct (getLendingPoolStats_utilizationRate Sample.deployed Sample.at_par
              eq_refl) as [H _].
  - by_evaluation.
  - by_evaluation.
  - vm_compute in H. vm_compute. exact H.
Defined.

(** C8, counterexample: 200 borrowed of 500 deposited is reported as 40,
    not as the ratio 0.4; the placeholder statistics of the undeployed pool
    are on the same scale. *)
Lemma getLendingPoolStats_utilizationRate_counterexample :
  total_borrowed Sample.deployed Sample.at_par = 200 ∧
  total_deposits Sample.deployed Sample.at_par = 500 ∧
  utilizationRate <$> getLendingPoolStats Sample.deployed Sample.at_par
    = Ok 40%float ∧
  (Spec.utilization_rate 200 500 <? 0.5)%float = true ∧
  40%float ≠ Spec.utilization_rate 200 500 ∧
  getLendingPoolStats source_config Sample.at_par
    = Ok {| totalDeposits := 500000000000000;
            totalBorrowed := 200000000000000;
            availableLiquidity := 300000000000000;
            utilizationRate := 40%float;
            collateralFactor := 75%float;
            liquidationThreshold := 80%float;
            liquidationBonus := 5%float;
            baseRate := 5%float |}.
Proof.
  repeat split; by_evaluation.
Qed.

(** ** Leverage preview *)

(** C6, as amended: for 100 tokens and a 75% collateral factor the preview
    adds 75 and then 56.25, unrounded: one loop gives 100, two give 175,
    three give 231.25, an effective leverage of 2.3125. Three tests of the
    loop condition, and so three units of fuel, are enough. *)
Theorem calculateExposure_100_by_3 cfg node stats (k : nat) :
  getLendingPoolStats cfg node = Ok stats →
  let cf := pageCollateralFactor (Some stats) in
  calculateExposure (1 + k) cf 100 1 = Some 100%float ∧
  calculateExposure (2 + k) cf 100 2 = Some 175%float ∧
  calculateExposure (3 + k) cf 100 3 = Some 231.25%float ∧
  calculateExposure_loop (2 + k) cf 2 1 100 100 = Some (175, 75)%float ∧
  calculateExposure_loop (3 + k) cf 3 1 100 100 = Some (231.25, 56.25)%float ∧
  effectiveLeverage 100 231.25 3 = 2.3125%float.
Proof.
  intros Hstats cf. subst cf.
  rewrite (getLendingPoolStats_collateralFactor cfg node stats Hstats).
  repeat split; vm_compute; reflexivity.
Qed.

Lemma calculateExposure_100_by_3_witness :
  calculateExposure 3 75 100 3 = Some 231.25%float.
Proof.
  destruct (getLendingPoolStats source_config Sample.at_par) as [stats|e] eqn:E;
    [|discriminate E].
  pose proof (calculateExposure_100_by_3 source_config Sample.at_par stats 0 E)
    as (_ & _ & H & _).
  injection E as <-. exact H.
Defined.

(** C6, counterexample: the third step adds 56.25, not 56, and the total is
    231.25, not 231. *)
Lemma calculateExposure_100_by_3_counterexample :
  calculateExposure 3 75 100 3 = Some 231.25%float ∧
  calculateExposure 3 75 100 3 ≠ Some 231%float ∧
  snd <$> calculateExposure_loop 3 75 3 1 100 100 = Some 56.25%float ∧
  snd <$> calculateExposure_loop 3 75 3 1 100 100 ≠ Some 56%float.
Proof. repeat split; by_evaluation. Qed.

(** ** The loops range of [buildLeverageStakeDeploy] *)

Lemma compare_cont_swap (p q : positive) :
  PosDef.Pos.compare_cont Eq q p = CompOpp (PosDef.Pos.compare_cont Eq p q).
Proof. exact (ZC4 q p). Qed.

(** Swapping the operands of a comparison of two floats mirrors it. *)
Lemma SFcompare_swap (x y : spec_float) :
  SFcompare y x = CompOpp <$> SFcompare x y.
Proof.
  destruct x as [[]|[]| |[] mx ex], y as [[]|[]| |[] my ey];
    cbn; try reflexivity;
    rewrite (Z.compare_antisym ex ey);
    destruct (ex ?= ey)%Z; cbn; try reflexivity;
    rewrite (compare_cont_swap mx my), ?CompOpp_involutive; reflexivity.
Qed.

Lemma float_leb_not_gt (x y : float) :
  (x <=? y)%float = true → (y <? x)%float = false.
Proof.
  rewrite leb_spec, ltb_spec. unfold SFleb, SFltb.
  rewrite (SFcompare_swap (Prim2SF x) (Prim2SF y)).
  destruct (SFcompare (Prim2SF x) (Prim2SF y)) as [[]|]; cbn; congruence.
Qed.

(** C7: every [loops] below 1 or above 4 makes the builder throw; no [loops]
    from 1 to 4 is refused by the range check, whatever the configuration
    and whatever the SDK does with the operands afterwards. *)
Theorem buildLeverageStakeDeploy_loops_range
  sdk cfg (senderPublicKey : string) (amount : Z) (loops : float) :
  ((loops <? 1)%float = true ∨ (4 <? loops)%float = true →
   ∃ e,
     buildLeverageStakeDeploy sdk cfg senderPublicKey amount loops = Throw e) ∧
  ((1 <=? loops)%float = true ∧ (loops <=? 4)%float = true →
   buildLeverageStakeDeploy sdk cfg senderPublicKey amount loops
     ≠ Throw (Error "Loops must be between 1 and 4")).
Proof.
  unfold buildLeverageStakeDeploy. split.
  - intros Hout. destruct (unset (LENDING_POOL_HASH cfg)); [eauto|].
    destruct Hout as [-> | ->]; rewrite ?orb_true_r; cbn; eauto.
  - intros [Hlo Hhi].
    apply float_leb_not_gt in Hlo. apply float_leb_not_gt in Hhi.
    rewrite Hlo, Hhi. cbn [orb].
    destruct (unset (LENDING_POOL_HASH cfg)); [discriminate|].
    unfold CLValueBuilder.u8, DeployUtil.standardPayment.
    destruct (u8_accepts sdk loops); [|discriminate].
    destruct (payment_accepts sdk _); discriminate.
Qed.

Lemma buildLeverageStakeDeploy_loops_range_witness :
  (∃ e, buildLeverageStakeDeploy sample_sdk Sample.deployed "01ab" 5 0
          = Throw e) ∧
  (∃ e, buildLeverageStakeDeploy sample_sdk Sample.deployed "01ab" 5 5
          = Throw e) ∧
  (∃ e, buildLeverageStakeDeploy sample_sdk source_config "01ab" 5 5
          = Throw e) ∧
  buildLeverageStakeDeploy sample_sdk Sample.deployed "01ab" 5 1
    ≠ Throw (Error "Loops must be between 1 and 4") ∧
  buildLeverageStakeDeploy sample_sdk Sample.deployed "01ab" 5 1.5
    ≠ Throw (Error "Loops must be between 1 and 4") ∧
  buildLeverageStakeDeploy sample_sdk source_config "01ab" 5 4
    ≠ Throw (Error "Loops must be between 1 and 4").
Proof.
  repeat split.
  - apply (buildLeverageStakeDeploy_loops_range sample_sdk Sample.deployed
             "01ab" 5 0).
    left. reflexivity.
  - apply (buildLeverageStakeDeploy_loops_range sample_sdk Sample.deployed
             "01ab" 5 5).
    right. reflexivity.
  - apply (buildLeverageStakeDeploy_loops_range sample_sdk source_config
             "01ab" 5 5).
    right. reflexivity.
  - apply (buildLeverageStakeDeploy_loops_range sample_sdk Sample.deployed
             "01ab" 5 1).
    split; reflexivity.
  - apply (buildLeverageStakeDeploy_loops_range sample_sdk Sample.deployed
             "01ab" 5 1.5).
    split; reflexivity.
  - apply (buildLeverageStakeDeploy_loops_range sample_sdk source_config
             "01ab" 5 4).
    split; reflexivity.
Defined.

(** Past the two checks the outcome is the SDK's: the deploy is built when
    the SDK takes [loops] as a [u8] and the payment, and its exception comes
    out otherwise. *)
Lemma buildLeverageStakeDeploy_built
  sdk cfg (senderPublicKey : string) (amount : Z) (loops : float) :
  unset (LENDING_POOL_HASH cfg) = false →
  (loops <? 1)%float = false → (4 <? loops)%float = false →
  buildLeverageStakeDeploy sdk cfg senderPublicKey amount loops
    = (if u8_accepts sdk loops
       then if payment_accepts sdk (GAS_COSTS.leverageStake + amount)
            then Ok {| account := senderPublicKey;
                       contract_hash := LENDING_POOL_HASH cfg;
                       entry_point := "leverage_stake";
                       args := [("loops", CLU8 loops)];
                       payment := GAS_COSTS.leverageStake + amount |}
            else Throw (SdkError "DeployUtil.standardPayment")
       else Throw (SdkError "CLValueBuilder.u8")).
Proof.
  intros Hcfg Hlo Hhi. unfold buildLeverageStakeDeploy.
  rewrite Hcfg, Hlo, Hhi. cbn [orb].
  unfold CLValueBuilder.u8, DeployUtil.standardPayment.
  destruct (u8_accepts sdk loops); [|reflexivity].
  destruct (payment_accepts sdk _); reflexivity.
Qed.

Example leverage_deploys_with_sample_sdk :
  (∃ deploy, buildLeverageStakeDeploy sample_sdk Sample.deployed "01ab" 5 3
               = Ok deploy) ∧
  buildLeverageStakeDeploy sample_sdk Sample.deployed "01ab" 5 1.5
    = Throw (SdkError "CLValueBuilder.u8") ∧
  buildLeverageStakeDeploy sample_sdk Sample.deployed "01ab" 5 nan
    = Throw (SdkError "CLValueBuilder.u8") ∧
  buildLeverageStakeDeploy sample_sdk Sample.deployed "01ab"
      (-15000000001) 2
    = Throw (SdkError "DeployUtil.standardPayment").
Proof. repeat split; try (eexists; vm_compute; reflexivity). Qed.

(** * Further properties *)

(** ** Share conversions at one pool state *)

(** X1: in a pool at par (as many tokens as shares, and not empty) both
    conversions return the amount itself. *)
Theorem conversions_at_par (amount pool : Z) :
  0 <= amount → 0 < pool →
  calculateThcsprFromCspr amount pool pool = Ok amount ∧
  calculateCsprFromThcspr amount pool pool = Ok amount.
Proof.
  intros Ha Hp. unfold calculateThcsprFromCspr, calculateCsprFromThcspr.
  destruct (Z.eqb_spec pool 0) as [?|_]; [lia|]. cbn [orb].
  rewrite BigInt_div_floor by nia. rewrite Z.div_mul by lia. auto.
Qed.

Lemma conversions_at_par_witness :
  calculateThcsprFromCspr 100 1000 1000 = Ok 100 ∧
  calculateCsprFromThcspr 100 1000 1000 = Ok 100.
Proof. apply conversions_at_par; lia. Defined.

(** Both conversions as total functions of unsigned operands. *)
Lemma calculateThcsprFromCspr_unsigned (a P S : Z) :
  0 <= a → 0 <= P → 0 <= S →
  calculateThcsprFromCspr a P S
    = Ok (if (S =? 0) || (P =? 0) then a else a * S / P).
Proof.
  intros Ha HP HS. unfold calculateThcsprFromCspr.
  destruct (Z.eqb_spec S 0), (Z.eqb_spec P 0); cbn [orb]; try reflexivity.
  apply BigInt_div_floor; nia.
Qed.

Lemma calculateCsprFromThcspr_unsigned (a P S : Z) :
  0 <= a → 0 <= P → 0 <= S →
  calculateCsprFromThcspr a P S = Ok (if S =? 0 then 0 else a * P / S).
Proof.
  intros Ha HP HS. unfold calculateCsprFromThcspr.
  destruct (Z.eqb_spec S 0); [reflexivity|].
  apply BigInt_div_floor; nia.
Qed.

(** X2: at a fixed pool state a larger amount never converts to less, in
    either direction. *)
Theorem conversions_monotone (a a' P S : Z) :
  0 <= a <= a' → 0 <= P → 0 <= S →
  ∃ m m' d d',
    calculateThcsprFromCspr a P S = Ok m ∧
    calculateThcsprFromCspr a' P S = Ok m' ∧ m <= m' ∧
    calculateCsprFromThcspr a P S = Ok d ∧
    calculateCsprFromThcspr a' P S = Ok d' ∧ d <= d'.
Proof.
  intros Ha HP HS.
  rewrite !calculateThcsprFromCspr_unsigned,
    !calculateCsprFromThcspr_unsigned by lia.
  do 4 eexists. repeat split.
  - destruct (Z.eqb_spec S 0), (Z.eqb_spec P 0); cbn [orb]; try lia.
    apply Z.div_le_mono; nia.
  - destruct (Z.eqb_spec S 0); [lia|]. apply Z.div_le_mono; nia.
Qed.

Lemma conversions_monotone_witness :
  ∃ m m' d d',
    calculateThcsprFromCspr 100 1199 1100 = Ok m ∧
    calculateThcsprFromCspr 200 1199 1100 = Ok m' ∧ m <= m' ∧
    calculateCsprFromThcspr 100 1199 1100 = Ok d ∧
    calculateCsprFromThcspr 200 1199 1100 = Ok d' ∧ d <= d'.
Proof. apply conversions_monotone; lia. Defined.

(** X3: converting an amount and converting the result back at the same
    pool state never returns more than the amount, whichever side one starts
    from. *)
Theorem conversions_there_and_back (a P S : Z) :
  0 <= a → 0 <= P → 0 <= S →
  (∃ shares back,
     calculateThcsprFromCspr a P S = Ok shares ∧
     calculateCsprFromThcspr shares P S = Ok back ∧ 0 <= back <= a) ∧
  (∃ tokens back,
     calculateCsprFromThcspr a P S = Ok tokens ∧
     calculateThcsprFromCspr tokens P S = Ok back ∧ 0 <= back <= a).
Proof.
  intros Ha HP HS.
  assert (∀ x y z, 0 <= x → 0 <= y → 0 < z → 0 <= x * y / z) as Hpos.
  { intros. apply Z.div_pos; nia. }
  assert (∀ x y z, 0 <= x → 0 < y → 0 < z → x * y / z * z / y <= x) as Hback.
  { intros x y z Hx Hy Hz. apply Z.div_le_upper_bound; [lia|].
    pose proof (Z.mul_div_le (x * y) z Hz). nia. }
  destruct (Z.eq_dec S 0) as [->|HS0]; [|destruct (Z.eq_dec P 0) as [->|HP0]].
  - (* no shares: tokens map to themselves, shares are worth nothing *)
    split.
    + exists a, 0. repeat split; try reflexivity; lia.
    + exists 0, 0. repeat split; try reflexivity; lia.
  - (* shares but no tokens *)
    split.
    + exists a, 0. unfold calculateCsprFromThcspr.
      destruct (Z.eqb_spec S 0) as [?|_]; [lia|].
      rewrite Z.mul_0_r, BigInt_div_floor by lia.
      rewrite Z.div_0_l by lia. unfold calculateThcsprFromCspr.
      rewrite Z.eqb_refl, orb_true_r. repeat split; lia.
    + exists 0, 0. unfold calculateCsprFromThcspr.
      destruct (Z.eqb_spec S 0) as [?|_]; [lia|].
      rewrite Z.mul_0_r, BigInt_div_floor by lia.
      rewrite Z.div_0_l by lia. unfold calculateThcsprFromCspr.
      rewrite Z.eqb_refl, orb_true_r. repeat split; lia.
  - assert (0 < S) by lia. assert (0 < P) by lia.
    pose proof (Hpos a S P Ha HS ltac:(lia)).
    pose proof (Hpos a P S Ha HP ltac:(lia)).
    assert (calculateThcsprFromCspr a P S = Ok (a * S / P)) as Hmint.
    { rewrite calculateThcsprFromCspr_unsigned by lia.
      destruct (Z.eqb_spec S 0), (Z.eqb_spec P 0); cbn [orb]; auto; lia. }
    assert (calculateCsprFromThcspr a P S = Ok (a * P / S)) as Hdue.
    { rewrite calculateCsprFromThcspr_unsigned by lia.
      destruct (Z.eqb_spec S 0); auto; lia. }
    split.
    + exists (a * S / P), (a * S / P * P / S). split; [exact Hmint|].
      rewrite calculateCsprFromThcspr_unsigned by lia.
      destruct (Z.eqb_spec S 0) as [?|_]; [lia|]. auto.
    + exists (a * P / S), (a * P / S * S / P). split; [exact Hdue|].
      rewrite calculateThcsprFromCspr_unsigned by lia.
      destruct (Z.eqb_spec S 0) as [?|_]; [lia|].
      destruct (Z.eqb_spec P 0) as [?|_]; [lia|]. cbn [orb]. auto.
Qed.

Lemma conversions_there_and_back_witness :
  (∃ shares back,
     calculateThcsprFromCspr 100 1199 1100 = Ok shares ∧
     calculateCsprFromThcspr shares 1199 1100 = Ok back ∧ 0 <= back <= 100) ∧
  (∃ tokens back,
     calculateCsprFromThcspr 100 1199 1100 = Ok tokens ∧
     calculateThcsprFromCspr tokens 1199 1100 = Ok back ∧ 0 <= back <= 100).
Proof. apply conversions_there_and_back; lia. Defined.

(** X4: at a fixed pool state, staking two amounts separately never mints
    more shares than staking their sum, and mints at most one share less. *)
Theorem calculateThcsprFromCspr_split (a b P S : Z) :
  0 <= a → 0 <= b → 0 <= P → 0 <= S →
  ∃ ma mb mab,
    calculateThcsprFromCspr a P S = Ok ma ∧
    calculateThcsprFromCspr b P S = Ok mb ∧
    calculateThcsprFromCspr (a + b) P S = Ok mab ∧
    ma + mb <= mab <= ma + mb + 1.
Proof.
  intros Ha Hb HP HS.
  rewrite !calculateThcsprFromCspr_unsigned by lia.
  do 3 eexists. repeat split.
  - destruct (Z.eqb_spec S 0), (Z.eqb_spec P 0); cbn [orb]; try lia.
    assert (0 < P) as HP' by lia.
    pose proof (Z.mul_div_le (a * S) P HP').
    pose proof (Z.mul_div_le (b * S) P HP').
    apply Z.div_le_lower_bound; [lia|]. nia.
  - destruct (Z.eqb_spec S 0), (Z.eqb_spec P 0); cbn [orb]; try lia.
    assert (0 < P) as HP' by lia.
    pose proof (Z.mul_succ_div_gt (a * S) P HP').
    pose proof (Z.mul_succ_div_gt (b * S) P HP').
    assert ((a + b) * S / P < a * S / P + b * S / P + 2); [|lia].
    apply Z.div_lt_upper_bound; [lia|]. nia.
Qed.

Lemma calculateThcsprFromCspr_split_witness :
  ∃ ma mb mab,
    calculateThcsprFromCspr 60 1199 1100 = Ok ma ∧
    calculateThcsprFromCspr 40 1199 1100 = Ok mb ∧
    calculateThcsprFromCspr (60 + 40) 1199 1100 = Ok mab ∧
    ma + mb <= mab <= ma + mb + 1.
Proof. apply calculateThcsprFromCspr_split; lia. Defined.

(** ** The exchange rate of [getPoolStats] *)

Lemma getPoolStats_deployed cfg node :
  unset (THAW_CORE_HASH cfg) = false →
  let P := total_pooled cfg node in
  let S := total_supply cfg node in
  getPoolStats cfg node
    = Ok {| totalPooledCspr := P;
            totalThcsprSupply := S;
            exchangeRate :=
              if S >? 0 then Z.quot (P * EXCHANGE_RATE_PRECISION) S
              else EXCHANGE_RATE_PRECISION;
            protocolFeeBps :=
              BigInt.Number
                (bigint_or 1000
                   (queryContractState node (THAW_CORE_HASH cfg)
                      "protocol_fee_bps"));
            minStake :=
              bigint_or 10000000000
                (queryContractState node (THAW_CORE_HASH cfg) "min_stake");
            isPaused :=
              negb (bigint_or 0
                      (queryContractState node (THAW_CORE_HASH cfg)
                         "is_paused") =? 0) |}.
Proof.
  intros H P S. unfold getPoolStats. rewrite H.
  fold (total_pooled cfg node). fold (total_supply cfg node). fold P. fold S.
  destruct (Z.gtb_spec S 0) as [HS|HS]; [|reflexivity].
  rewrite BigInt_div_nonzero by lia. reflexivity.
Qed.

(** X5: with the core contract deployed, the exchange rate is 1e18 while
    there are no shares and at par, and it is at least 1e18 exactly when the
    pool holds at least as many tokens as shares. *)
Theorem current_rate_against_par cfg node :
  unset (THAW_CORE_HASH cfg) = false →
  0 <= total_pooled cfg node →
  let P := total_pooled cfg node in
  let S := total_supply cfg node in
  ∃ rate,
    current_rate cfg node = Ok rate ∧
    (S <= 0 → rate = EXCHANGE_RATE_PRECISION) ∧
    (0 < S → rate = P * EXCHANGE_RATE_PRECISION / S) ∧
    (0 < S → (EXCHANGE_RATE_PRECISION <= rate ↔ S <= P)) ∧
    (0 < S → P = S → rate = EXCHANGE_RATE_PRECISION).
Proof.
  intros Hcfg HP. cbv zeta. unfold current_rate.
  rewrite (getPoolStats_deployed cfg node Hcfg).
  cbn [fmap result_fmap exchangeRate].
  generalize dependent (total_pooled cfg node).
  generalize (total_supply cfg node). intros S P HP.
  eexists. split; [reflexivity|].
  destruct (Z.gtb_spec S 0) as [HS|HS].
  - rewrite Z.quot_div_nonneg by (unfold EXCHANGE_RATE_PRECISION; lia).
    repeat split; try lia.
    + intros Hle. unfold EXCHANGE_RATE_PRECISION in *.
      assert (P < S → False); [|lia]. intros Hlt.
      assert (P * 1000000000000000000 / S < 1000000000000000000); [|lia].
      apply Z.div_lt_upper_bound; nia.
    + intros Hle. apply Z.div_le_lower_bound; [lia|].
      unfold EXCHANGE_RATE_PRECISION. nia.
    + intros _ ->. rewrite Z.mul_comm. apply Z.div_mul. lia.
  - repeat split; intros; lia.
Qed.

Lemma current_rate_against_par_witness :
  ∃ rate,
    current_rate Sample.deployed Sample.appreciated = Ok rate ∧
    rate = 2000000000000000000.
Proof.
  destruct (current_rate_against_par Sample.deployed Sample.appreciated)
    as (rate & Hrate & _ & Hquot & _).
  - by_evaluation.
  - by_evaluation.
  - exists rate. split; [exact Hrate|]. apply Hquot. by_evaluation.
Defined.

(** X6: with shares outstanding, the exchange rate is what
    [calculateCsprFromThcspr] pays for 1e18 shares. *)
Theorem current_rate_is_unit_value cfg node :
  unset (THAW_CORE_HASH cfg) = false →
  0 < total_supply cfg node →
  current_rate cfg node
    = calculateCsprFromThcspr EXCHANGE_RATE_PRECISION
        (total_pooled cfg node) (total_supply cfg node).
Proof.
  intros Hcfg HS. unfold current_rate.
  rewrite (getPoolStats_deployed cfg node Hcfg).
  cbn [fmap result_fmap exchangeRate]. unfold calculateCsprFromThcspr.
  destruct (Z.gtb_spec (total_supply cfg node) 0) as [_|?]; [|lia].
  destruct (Z.eqb_spec (total_supply cfg node) 0) as [?|_]; [lia|].
  rewrite BigInt_div_nonzero by lia.
  rewrite (Z.mul_comm EXCHANGE_RATE_PRECISION). reflexivity.
Qed.

Lemma current_rate_is_unit_value_witness :
  current_rate Sample.deployed Sample.appreciated
    = calculateCsprFromThcspr EXCHANGE_RATE_PRECISION 2000 1000.
Proof.
  exact (current_rate_is_unit_value Sample.deployed Sample.appreciated
           eq_refl eq_refl).
Defined.

(** X7: the borrow page values collateral through the rounded rate. With
    shares outstanding the value never exceeds what
    [calculateCsprFromThcspr] pays for the same shares, and at par it is
    exactly the number of shares. With no shares outstanding the rate falls
    back to 1e18: the page shows the number of shares, where
    [calculateCsprFromThcspr] pays nothing. *)
Theorem collateralValue_bounded cfg node stats (shares : Z) :
  unset (THAW_CORE_HASH cfg) = false →
  getPoolStats cfg node = Ok stats →
  0 <= shares → 0 <= total_pooled cfg node → 0 <= total_supply cfg node →
  ∃ value exact,
    collateralValue shares stats = Ok value ∧
    calculateCsprFromThcspr shares (total_pooled cfg node)
      (total_supply cfg node) = Ok exact ∧
    0 <= value ∧
    (0 < total_supply cfg node →
     value <= exact ∧
     (total_pooled cfg node = total_supply cfg node → value = shares)) ∧
    (total_supply cfg node = 0 → value = shares ∧ exact = 0).
Proof.
  intros Hcfg Hstats Hc HP HS.
  rewrite (getPoolStats_deployed cfg node Hcfg) in Hstats.
  injection Hstats as <-. unfold collateralValue. cbn [exchangeRate].
  rewrite calculateCsprFromThcspr_unsigned by lia.
  generalize dependent (total_pooled cfg node).
  generalize dependent (total_supply cfg node). intros S HS P HP.
  unfold EXCHANGE_RATE_PRECISION. set (E := 1000000000000000000) in *.
  destruct (Z.gtb_spec S 0) as [HS'|HS'].
  - destruct (Z.eqb_spec S 0) as [?|_]; [lia|].
    rewrite (Z.quot_div_nonneg (P * _) S) by lia.
    assert (0 <= P * E / S) by (apply Z.div_pos; lia).
    rewrite BigInt_div_floor by lia.
    do 2 eexists. repeat split; try lia.
    + apply Z.div_pos; lia.
    + apply Z.div_le_lower_bound; [lia|].
      pose proof (Z.mul_div_le (P * E) S ltac:(lia)) as Hr.
      pose proof (Z.mul_div_le (shares * (P * E / S)) E ltac:(lia)) as Hv.
      assert (0 < E) as HE by lia.
      generalize dependent (shares * (P * E / S) / E).
      generalize dependent (P * E / S). clearbody E. intros r Hr0 Hr v Hv.
      assert (E * (S * v) <= E * (shares * P)) as Hle; [nia|].
      apply Z.mul_le_mono_pos_l in Hle; assumption.
    + intros Heq. rewrite Heq, (Z.mul_comm S E), Z.div_mul by lia.
      apply Z.div_mul. lia.
  - assert (S = 0) as -> by lia. rewrite Z.eqb_refl.
    rewrite BigInt_div_floor by lia. rewrite Z.div_mul by lia.
    do 2 eexists. repeat split; try reflexivity; lia.
Qed.

Lemma collateralValue_bounded_witness :
  ∃ stats value,
    getPoolStats Sample.deployed Sample.appreciated = Ok stats ∧
    collateralValue 100 stats = Ok value ∧ 0 <= value <= 200.
Proof.
  destruct (getPoolStats Sample.deployed Sample.appreciated)
    as [stats|e] eqn:E; [|discriminate E].
  destruct (collateralValue_bounded Sample.deployed Sample.appreciated stats
              100 eq_refl E)
    as (value & exact & Hv & He & Hlo & Hup & _);
    [by_evaluation|by_evaluation|by_evaluation|].
  exists stats, value. split; [reflexivity|]. split; [exact Hv|].
  vm_compute in He. injection He as <-.
  destruct Hup as [Hup _]; [by_evaluation|]. split; [exact Hlo|exact Hup].
Defined.

(** ** Health of a position *)

Section DeployedPositions.

Context (cfg : Config) (node : Node).
Hypothesis lending_deployed : unset (LENDING_POOL_HASH cfg) = false.

(** The health factor of an unsigned position with debt. *)
Lemma healthFactor_with_debt accountHash :
  0 <= collateral_shares cfg node accountHash →
  0 < debt cfg node accountHash →
  healthFactor <$> getUserPosition cfg node accountHash
    = Ok (collateral_shares cfg node accountHash * 80 / 100
            * EXCHANGE_RATE_PRECISION / debt cfg node accountHash).
Proof.
  intros Hc Hd.
  rewrite (getUserPosition_deployed cfg node lending_deployed accountHash).
  cbn [fmap result_fmap healthFactor].
  destruct (Z.gtb_spec (debt cfg node accountHash) 0) as [_|?]; [|lia].
  assert (0 <= collateral_shares cfg node accountHash * 80 / 100)
    by (apply Z.div_pos; lia).
  rewrite (Z.quot_div_nonneg (_ * 80) 100) by lia.
  rewrite Z.quot_div_nonneg by (unfold EXCHANGE_RATE_PRECISION; lia).
  reflexivity.
Qed.

(** X10: a position with debt is below the liquidation mark (health factor
    under 1e18) exactly when the debt exceeds 80% of the collateral, rounded
    down. *)
Theorem healthFactor_liquidatable accountHash :
  0 <= collateral_shares cfg node accountHash →
  0 < debt cfg node accountHash →
  ∃ hf,
    healthFactor <$> getUserPosition cfg node accountHash = Ok hf ∧
    0 <= hf ∧
    (hf < EXCHANGE_RATE_PRECISION ↔
     collateral_shares cfg node accountHash * 80 / 100
       < debt cfg node accountHash).
Proof.
  intros Hc Hd. rewrite (healthFactor_with_debt accountHash Hc Hd).
  generalize dependent (debt cfg node accountHash).
  generalize dependent (collateral_shares cfg node accountHash).
  intros c Hc d Hd. eexists. split; [reflexivity|].
  assert (0 <= c * 80 / 100) as Hq by (apply Z.div_pos; lia).
  generalize dependent (c * 80 / 100). intros q Hq.
  unfold EXCHANGE_RATE_PRECISION. split; [apply Z.div_pos; lia|]. split.
  - intros Hlt. assert (d <= q → False); [|lia]. intros Hle.
    assert (1000000000000000000 <= q * 1000000000000000000 / d); [|lia].
    apply Z.div_le_lower_bound; lia.
  - intros Hlt. apply Z.div_lt_upper_bound; lia.
Qed.

(** X11: a position that owes no more than 75% of its collateral is not
    liquidatable; in particular one that still has borrowing headroom, and
    borrowing all of the headroom brings the debt exactly to that cap. *)
Theorem maxBorrow_is_safe accountHash :
  0 <= collateral_shares cfg node accountHash →
  let cap := collateral_shares cfg node accountHash * 75 / 100 in
  ∃ position,
    getUserPosition cfg node accountHash = Ok position ∧
    (borrowed position <= cap →
     EXCHANGE_RATE_PRECISION <= healthFactor position) ∧
    (0 < maxBorrow position →
     borrowed position + maxBorrow position = cap ∧
     EXCHANGE_RATE_PRECISION <= healthFactor position).
Proof.
  intros Hc cap. subst cap.
  rewrite (getUserPosition_deployed cfg node lending_deployed accountHash).
  eexists. split; [reflexivity|]. cbn [borrowed maxBorrow healthFactor].
  generalize (debt cfg node accountHash).
  generalize dependent (collateral_shares cfg node accountHash).
  intros c Hc d.
  rewrite !(Z.quot_div_nonneg (c * _) 100) by lia.
  assert (c * 75 / 100 <= c * 80 / 100) as Hcaps
    by (apply Z.div_le_mono; lia).
  assert (d <= c * 75 / 100 →
          EXCHANGE_RATE_PRECISION
            <= (if d >? 0
                then Z.quot (c * 80 / 100 * EXCHANGE_RATE_PRECISION) d
                else EXCHANGE_RATE_PRECISION * 10)) as Hsafe.
  { intros Hd. unfold EXCHANGE_RATE_PRECISION.
    destruct (Z.gtb_spec d 0) as [Hpos|_]; [|lia].
    rewrite Z.quot_div_nonneg by lia.
    apply Z.div_le_lower_bound; lia. }
  split; [exact Hsafe|]. intros Hroom. split; [lia|]. apply Hsafe. lia.
Qed.

(** X12: more collateral and less debt never lower the health factor. *)
Theorem healthFactor_monotone account1 account2 :
  0 <= collateral_shares cfg node account1
    <= collateral_shares cfg node account2 →
  0 < debt cfg node account2 <= debt cfg node account1 →
  ∃ hf1 hf2,
    healthFactor <$> getUserPosition cfg node account1 = Ok hf1 ∧
    healthFactor <$> getUserPosition cfg node account2 = Ok hf2 ∧
    hf1 <= hf2.
Proof.
  intros Hc Hd.
  rewrite !healthFactor_with_debt by lia.
  generalize dependent (debt cfg node account1).
  generalize dependent (debt cfg node account2).
  generalize dependent (collateral_shares cfg node account1).
  generalize dependent (collateral_shares cfg node account2).
  intros c2 c1 Hc d2 d1 Hd. do 2 eexists. repeat split.
  assert (0 <= c1 * 80 / 100 <= c2 * 80 / 100) as Hq.
  { split; [apply Z.div_pos; lia|apply Z.div_le_mono; lia]. }
  transitivity (c2 * 80 / 100 * EXCHANGE_RATE_PRECISION / d1).
  - apply Z.div_le_mono; unfold EXCHANGE_RATE_PRECISION; lia.
  - apply Z.div_le_compat_l; unfold EXCHANGE_RATE_PRECISION; lia.
Qed.


End DeployedPositions.

Lemma healthFactor_liquidatable_witness :
  ∃ hf,
    healthFactor <$> getUserPosition Sample.deployed Sample.at_par "bob"
      = Ok hf ∧
    hf < EXCHANGE_RATE_PRECISION.
Proof.
  destruct (healthFactor_liquidatable Sample.deployed Sample.at_par eq_refl
              "bob") as (hf & Hhf & _ & Hliq);
    [by_evaluation|by_evaluation|].
  exists hf. split; [exact Hhf|]. apply Hliq. by_evaluation.
Defined.

Lemma maxBorrow_is_safe_witness :
  ∃ position,
    getUserPosition Sample.deployed Sample.appreciated "alice" = Ok position ∧
    borrowed position + maxBorrow position = 75 ∧
    EXCHANGE_RATE_PRECISION <= healthFactor position.
Proof.
  destruct (maxBorrow_is_safe Sample.deployed Sample.appreciated eq_refl
              "alice") as (position & Hpos & _ & Hroom); [by_evaluation|].
  exists position. split; [exact Hpos|].
  vm_compute in Hpos. injection Hpos as <-. apply Hroom. by_evaluation.
Defined.

Lemma healthFactor_monotone_witness :
  ∃ hf1 hf2,
    healthFactor <$> getUserPosition Sample.deployed Crowd.node "ann"
      = Ok hf1 ∧
    healthFactor <$> getUserPosition Sample.deployed Crowd.node "ben"
      = Ok hf2 ∧
    hf1 <= hf2.
Proof.
  apply (healthFactor_monotone Sample.deployed Crowd.node eq_refl
           "ann" "ben"); split; by_evaluation.
Defined.


(** ** Comparing numbers *)

Lemma compare_cont_refl (p : positive) : PosDef.Pos.compare_cont Eq p p = Eq.
Proof. exact (Pos.compare_cont_refl p Eq). Qed.

Lemma SFcompare_refl (x : spec_float) :
  SFcompare x x = None ∨ SFcompare x x = Some Eq.
Proof.
  destruct x as [[]|[]| |[] m e]; cbn; auto;
    rewrite Z.compare_refl, compare_cont_refl; auto.
Qed.

(** Only NaN is incomparable. *)
Lemma SFcompare_None (x y : spec_float) :
  SFcompare x y = None → SFcompare x x = None ∨ SFcompare y y = None.
Proof.
  destruct x as [[]|[]| |[] mx ex], y as [[]|[]| |[] my ey]; cbn; auto;
    discriminate.
Qed.

Lemma is_nan_compare (x : float) :
  PrimFloat.is_nan x = false ↔ SFcompare (Prim2SF x) (Prim2SF x) = Some Eq.
Proof.
  unfold PrimFloat.is_nan. rewrite FloatAxioms.eqb_spec. unfold SFeqb.
  destruct (SFcompare_refl (Prim2SF x)) as [-> | ->]; cbn; split; congruence.
Qed.

(** Two numbers that are not NaN are ordered one way, the other way, or
    equal. *)
Lemma float_trichotomy (x y : float) :
  PrimFloat.is_nan x = false → PrimFloat.is_nan y = false →
  ((x <? y)%float = true ∧ (y <? x)%float = false ∧ (x <=? y)%float = true) ∨
  ((y <? x)%float = true ∧ (x <? y)%float = false ∧ (y <=? x)%float = true) ∨
  ((x <? y)%float = false ∧ (y <? x)%float = false ∧
   (x <=? y)%float = true ∧ (y <=? x)%float = true).
Proof.
  rewrite !is_nan_compare, !ltb_spec, !leb_spec. unfold SFltb, SFleb.
  intros Hx Hy. rewrite (SFcompare_swap (Prim2SF x) (Prim2SF y)).
  destruct (SFcompare (Prim2SF x) (Prim2SF y)) as [[]|] eqn:E; cbn; auto 10.
  apply SFcompare_None in E as [E|E]; congruence.
Qed.

(** ** Health factor gauge *)

(** X16: the text colour, the status word and the bar colour of the gauge
    always name the same band, for every number and for NaN (which reads as
    the lowest band); the top band is shown exactly from 2 up. *)
Theorem health_bands_agree (h : float) :
  (getHealthColor h, getHealthStatus h, getProgressColor h) ∈
    [("text-green-500", "Healthy", "bg-green-500");
     ("text-yellow-500", "Moderate", "bg-yellow-500");
     ("text-orange-500", "At Risk", "bg-orange-500");
     ("text-red-500", "Danger", "bg-red-500")] ∧
  (getHealthStatus h = "Healthy" ↔ (2 <=? h)%float = true) ∧
  (PrimFloat.is_nan h = true → getHealthStatus h = "Danger").
Proof.
  unfold getHealthColor, getHealthStatus, getProgressColor. split; [|split].
  - destruct (2 <=? h)%float; [repeat constructor|].
    destruct (1.5 <=? h)%float; [repeat constructor|].
    destruct (0x1.199999999999ap+0 <=? h)%float; repeat constructor.
  - destruct (2 <=? h)%float; [tauto|].
    destruct (1.5 <=? h)%float; [split; discriminate|].
    destruct (0x1.199999999999ap+0 <=? h)%float; split; discriminate.
  - intros Hnan.
    assert (∀ c, (c <=? h)%float = false) as Hcmp.
    { intros c. rewrite leb_spec. unfold SFleb.
      destruct (SFcompare (Prim2SF c) (Prim2SF h)) as [[]|] eqn:E; auto.
      all: destruct (SFcompare_refl (Prim2SF h)) as [Hh|Hh];
        [|apply is_nan_compare in Hh; congruence].
      all: destruct (Prim2SF c) as [[]|[]| |[] ? ?],
             (Prim2SF h) as [[]|[]| |[] ? ?]; cbn in *;
        try discriminate;
        rewrite ?Z.compare_refl, ?compare_cont_refl in Hh; discriminate. }
    rewrite !Hcmp. reflexivity.
Qed.

(** X17: the width of the gauge bar is clamped: it is NaN only when the
    scaled health factor is NaN, and otherwise lies between 0 and 100. *)
Theorem progressPercentage_clamped (h : float) :
  let scaled := ((h - 1) / 2 * 100)%float in
  let width := progressPercentage h in
  (PrimFloat.is_nan scaled = true → PrimFloat.is_nan width = true) ∧
  (PrimFloat.is_nan scaled = false →
   PrimFloat.is_nan width = false ∧
   (0 <=? width)%float = true ∧ (width <=? 100)%float = true).
Proof.
  cbv zeta. unfold progressPercentage.
  generalize ((h - 1) / 2 * 100)%float. intros y. split.
  - intros Hy. unfold Math.max. rewrite Hy, orb_true_r. reflexivity.
  - intros Hy. unfold Math.max.
    change (PrimFloat.is_nan 0) with false. rewrite Hy. cbn [orb].
    assert (PrimFloat.is_nan 0 = false) as H0 by reflexivity.
    assert (PrimFloat.is_nan 100 = false) as H100 by reflexivity.
    assert (∃ m, (if (0 <? y)%float then y
                  else if (y <? 0)%float then 0%float
                  else if PrimFloat.get_sign 0 then y else 0%float) = m ∧
                 PrimFloat.is_nan m = false ∧ (0 <=? m)%float = true)
      as (m & -> & Hm & Hlo).
    { destruct (float_trichotomy 0 y H0 Hy)
        as [(-> & _ & Hle)|[(Hgt & -> & _)|(-> & -> & _ & _)]].
      - eauto.
      - rewrite Hgt. eauto.
      - change (PrimFloat.get_sign 0) with false. eauto. }
    unfold Math.min. change (PrimFloat.is_nan 100) with false.
    rewrite Hm. cbn [orb]. change (PrimFloat.get_sign 100) with false.
    destruct (float_trichotomy 100 m H100 Hm)
      as [(-> & _ & _)|[(-> & -> & Hle)|(-> & -> & _ & Hle)]]; auto.
Qed.

(** ** Withdrawal requests *)

(** X18: a request is offered for claiming exactly when the core contract
    is deployed, the account owns its id, the request is stored under that
    id, it is not yet claimed and its time has come. Ids without a stored
    request are skipped. *)
Theorem claimable_withdrawals_exact cfg store accountHash now
  (w : Withdrawal.t) :
  w ∈ claimableWithdrawals now
        (pendingWithdrawals (getUserWithdrawals cfg store accountHash)) ↔
  unset (THAW_CORE_HASH cfg) = false ∧
  (∃ ids i, user_withdrawals store !! accountHash = Some ids ∧
            i ∈ ids ∧ withdrawals store !! i = Some w) ∧
  Withdrawal.claimed w = false ∧
  (Withdrawal.claimableTimestamp w <=? now)%float = true.
Proof.
  unfold claimableWithdrawals, pendingWithdrawals, getUserWithdrawals.
  rewrite list_elem_of_In, !filter_In, <- list_elem_of_In, negb_true_iff.
  destruct (unset (THAW_CORE_HASH cfg)).
  { split; [intros [[H _] _]; inversion H|intros [? _]; discriminate]. }
  destruct (user_withdrawals store !! accountHash) as [ids|].
  - rewrite list_elem_of_omap. split.
    + intros [[(i & Hi & Hw) Hc] Hdue]. eauto 10.
    + intros (_ & (ids' & i & [= <-] & Hi & Hw) & Hc & Hdue). eauto.
  - split; [intros [[H _] _]; inversion H|].
    intros (_ & (ids & i & [=] & _) & _).
Qed.

Lemma length_omap_le {A B} (f : A → option B) (l : list A) :
  (length (omap f l) <= length l)%nat.
Proof.
  induction l as [|x l IH]; cbn; [lia|]. destruct (f x); cbn; lia.
Qed.

(** X19: the lists only shrink: no more requests are claimable than are
    pending, no more pending than fetched, no more fetched than the account
    has ids; and nothing is fetched while the core contract is undeployed or
    the account is unknown. *)
Theorem withdrawals_counts cfg store accountHash now :
  let fetched := getUserWithdrawals cfg store accountHash in
  (length (claimableWithdrawals now (pendingWithdrawals fetched))
    <= length (pendingWithdrawals fetched) <= length fetched)%nat ∧
  (length fetched
    <= length (default [] (user_withdrawals store !! accountHash)))%nat ∧
  (unset (THAW_CORE_HASH cfg) = true ∨
   user_withdrawals store !! accountHash = None → fetched = []).
Proof.
  cbv zeta. unfold claimableWithdrawals, pendingWithdrawals.
  repeat split; try apply List.filter_length_le.
  - unfold getUserWithdrawals. destruct (unset _); [cbn; lia|].
    destruct (user_withdrawals store !! accountHash); [|cbn; lia].
    apply length_omap_le.
  - unfold getUserWithdrawals.
    intros [-> | ->]; [reflexivity|]. destruct (unset _); reflexivity.
Qed.

(** ** Address display *)




(** ** Rates shown on the pages *)

(** The whole percentages a utilization rate can take. *)
Lemma utilizationRate_percent cfg node stats :
  getLendingPoolStats cfg node = Ok stats →
  0 <= total_borrowed cfg node <= total_deposits cfg node →
  ∃ pct, 0 <= pct <= 100 ∧ utilizationRate stats = BigInt.Number pct ∧
         baseRate stats = 5%float.
Proof.
  intros Hstats Hb.
  destruct (unset (LENDING_POOL_HASH cfg)) eqn:Hcfg.
  - unfold getLendingPoolStats in Hstats. rewrite Hcfg in Hstats.
    injection Hstats as <-. exists 40. repeat split; lia.
  - rewrite (getLendingPoolStats_deployed cfg node Hcfg) in Hstats.
    injection Hstats as <-. cbn [utilizationRate baseRate].
    generalize dependent (total_deposits cfg node).
    generalize dependent (total_borrowed cfg node). intros b d Hb.
    destruct (Z.gtb_spec d 0) as [Hd|Hd].
    + exists (b * 100 / d). rewrite Z.quot_div_nonneg by lia.
      repeat split; [apply Z.div_pos; lia|].
      apply Z.div_le_upper_bound; lia.
    + exists 0. repeat split; lia.
Qed.

(** X21: while borrowing stays within deposits, the borrow rate shown on
    the leverage and borrow pages lies between 5 and 15, the lending rate
    shown on the lend page between 5 and 10, and the lending rate never
    exceeds the borrow rate. *)
Theorem page_rates_in_range cfg node stats (dflt : float) :
  getLendingPoolStats cfg node = Ok stats →
  0 <= total_borrowed cfg node <= total_deposits cfg node →
  let borrow := borrowApy dflt (Some stats) in
  let lend := estimatedApy (Some stats) in
  (5 <=? borrow)%float = true ∧ (borrow <=? 15)%float = true ∧
  (5 <=? lend)%float = true ∧ (lend <=? 10)%float = true ∧
  (lend <=? borrow)%float = true.
Proof.
  intros Hstats Hb.
  destruct (utilizationRate_percent cfg node stats Hstats Hb)
    as (pct & Hpct & Hu & Hbase).
  cbv zeta. unfold borrowApy, estimatedApy. rewrite Hu, Hbase.
  set (ok := λ p : Z,
         let u := BigInt.Number p in
         let borrow := (5 + u * 5 / 50)%float in
         let lend := (5 + u * 5 / 100)%float in
         (5 <=? borrow)%float && (borrow <=? 15)%float &&
         (5 <=? lend)%float && (lend <=? 10)%float && (lend <=? borrow)%float).
  assert (forallb ok (seqZ 0 101) = true) as Hall by (vm_compute; reflexivity).
  rewrite forallb_forall in Hall.
  specialize (Hall pct). rewrite <- list_elem_of_In, elem_of_seqZ in Hall.
  specialize (Hall ltac:(lia)). subst ok. cbv zeta in Hall.
  repeat (apply andb_prop in Hall as [Hall ?]). auto.
Qed.

Lemma page_rates_in_range_witness :
  (5 <=? borrowApy 10 (Some {| totalDeposits := 500000000000000;
                               totalBorrowed := 200000000000000;
                               availableLiquidity := 300000000000000;
                               utilizationRate := 40;
                               collateralFactor := 75;
                               liquidationThreshold := 80;
                               liquidationBonus := 5;
                               baseRate := 5 |}))%float = true.
Proof.
  apply (page_rates_in_range source_config Sample.at_par _ 10 eq_refl).
  split; by_evaluation.
Defined.

(** ** Order of numbers, continued *)

Lemma compare_cont_spec (p q : positive) :
  CompareSpec (p = q) (p < q)%positive (q < p)%positive
    (PosDef.Pos.compare_cont Eq p q).
Proof. exact (Pos.compare_spec p q). Qed.

Ltac order_done := intros; first [congruence | exfalso; lia].

Lemma SFleb_trans (x y z : spec_float) :
  SFleb x y = true → SFleb y z = true → SFleb x z = true.
Proof.
  unfold SFleb.
  destruct x as [[]|[]| |[] mx ex], y as [[]|[]| |[] my ey],
    z as [[]|[]| |[] mz ez]; cbn; try order_done;
    destruct (Z.compare_spec ex ey), (Z.compare_spec ey ez),
      (Z.compare_spec ex ez); cbn; try order_done;
    subst;
    destruct (compare_cont_spec mx my), (compare_cont_spec my mz),
      (compare_cont_spec mx mz); cbn; order_done.
Qed.

Lemma float_leb_trans (x y z : float) :
  (x <=? y)%float = true → (y <=? z)%float = true → (x <=? z)%float = true.
Proof. rewrite !leb_spec. apply SFleb_trans. Qed.

(** X22: time only adds to what can be claimed: a request claimable at one
    instant is claimable at every later one, and stays in the same order in
    the list. *)
Theorem claimable_later (now later : float) (pending : list Withdrawal.t) :
  (now <=? later)%float = true →
  claimableWithdrawals now pending
    = claimableWithdrawals now (claimableWithdrawals later pending) ∧
  ∀ w, w ∈ claimableWithdrawals now pending →
       w ∈ claimableWithdrawals later pending.
Proof.
  intros Hle. unfold claimableWithdrawals. split.
  - induction pending as [|w ws IH]; [reflexivity|]. cbn.
    destruct (Withdrawal.claimableTimestamp w <=? now)%float eqn:Hnow.
    + rewrite (float_leb_trans _ _ _ Hnow Hle). cbn. rewrite Hnow.
      f_equal. exact IH.
    + destruct (Withdrawal.claimableTimestamp w <=? later)%float; [cbn|];
        rewrite ?Hnow; exact IH.
  - intros w. rewrite !list_elem_of_In, !filter_In.
    intros [Hin Hnow]. split; [exact Hin|].
    exact (float_leb_trans _ _ _ Hnow Hle).
Qed.

Lemma claimable_later_witness :
  claimableWithdrawals 1500
    (pendingWithdrawals (getUserWithdrawals Sample.deployed Crowd.store "ann"))
  = claimableWithdrawals 1500
      (claimableWithdrawals 2500
         (pendingWithdrawals
            (getUserWithdrawals Sample.deployed Crowd.store "ann"))).
Proof. apply (claimable_later 1500 2500). reflexivity. Defined.

(** Goals about band names: equal, different, or in a short list. *)
Ltac bands :=
  repeat split; intros;
  first
    [ reflexivity
    | discriminate
    | solve [repeat constructor]
    | exfalso;
      match goal with
      | H : _ ∈ _ |- _ =>
          repeat (apply elem_of_cons in H as [H|H]; [discriminate|]);
          inversion H
      end ].

(** X23: a higher health factor never shows a lower band. *)
Theorem health_bands_monotone (h h' : float) :
  (h <=? h')%float = true →
  (getHealthStatus h = "Healthy" → getHealthStatus h' = "Healthy") ∧
  (getHealthStatus h ∈ ["Healthy"; "Moderate"] →
   getHealthStatus h' ∈ ["Healthy"; "Moderate"]) ∧
  (getHealthStatus h' = "Danger" → getHealthStatus h = "Danger").
Proof.
  intros Hle.
  assert (∀ c, (c <=? h)%float = true → (c <=? h')%float = true) as Hup.
  { intros c Hc. exact (float_leb_trans _ _ _ Hc Hle). }
  unfold getHealthStatus.
  destruct (2 <=? h)%float eqn:E2.
  { rewrite (Hup _ E2). bands. }
  destruct (1.5 <=? h)%float eqn:E15.
  { pose proof (Hup _ E15) as E15'.
    destruct (2 <=? h')%float; [|rewrite E15']; bands. }
  destruct (0x1.199999999999ap+0 <=? h)%float eqn:E11.
  { pose proof (Hup _ E11) as E11'.
    destruct (2 <=? h')%float eqn:E2'; [|destruct (1.5 <=? h')%float eqn:E15'];
      rewrite ?E11'; bands. }
  bands.
Qed.

Lemma health_bands_monotone_witness :
  getHealthStatus (healthFactorNum 10000000000000000000) = "Healthy".
Proof.
  apply (health_bands_monotone (healthFactorNum 2500000000000000000)
           (healthFactorNum 10000000000000000000)); reflexivity.
Defined.

(** ** Leverage *)

(** X24: for each leverage the page offers the exposure loop ends within
    four tests of its condition, whatever the amount and the collateral
    factor; at a loop count that is not above 1, NaN included, it does not
    run and the exposure is the amount itself. *)
Theorem calculateExposure_terminates (collateralFactor amount : float)
  (k : nat) :
  (∀ loops, loops ∈ [1; 2; 3; 4]%float →
     ∃ total,
       calculateExposure (4 + k) collateralFactor amount loops = Some total) ∧
  (∀ loopCount, (1 <? loopCount)%float = false →
     calculateExposure (1 + k) collateralFactor amount loopCount
       = Some amount).
Proof.
  split.
  - intros loops Hin.
    repeat (apply elem_of_cons in Hin as [->|Hin];
            [eexists; vm_compute; reflexivity|]).
    inversion Hin.
  - intros loopCount Hle. unfold calculateExposure. cbn.
    rewrite Hle. reflexivity.
Qed.

(** ** The sample requests, run *)

Example ann_claimable_at_2500 :
  claimableWithdrawals 2500
    (pendingWithdrawals (getUserWithdrawals Sample.deployed Crowd.store "ann"))
    = [Crowd.request 2 2000 false] ∧
  length (getUserWithdrawals Sample.deployed Crowd.store "ann") = 3%nat ∧
  getUserWithdrawals source_config Crowd.store "zed" = [].
Proof. repeat split; vm_compute; reflexivity. Qed.

Example shortenAddress_samples :
  shortenAddress "0123456789abcdef" 4 = "012345...cdef" ∧
  shortenAddress "0123456789abcdef" 0 = "01...0123456789abcdef" ∧
  shortenAddress "abc" 4 = "abc...abc".
Proof. repeat split; reflexivity. Qed.
